(** * DroneForge: control channel engine, script timelines and flight dynamics

    A shallow embedding of [DroneControls] (src/controls/DroneControls.js)
    and of the force and velocity-limiting code of [PhysicsEngine]
    (src/physics/PhysicsEngine.js).

    Modelling conventions.
    - JavaScript numbers of the control side are rationals ([Q]): every
      constant of [DroneControls] is a decimal literal and the class only
      adds, subtracts, halves and takes [Math.max]/[Math.min].  [NaN] and the
      infinities are outside the model, and so is the rounding of binary64:
      where a property speaks of the size of a step it leaves a tolerance
      for it, and module [Binary64] evaluates the centering functions in
      floating point.
    - The physics side needs [length()] of a vector (a square root), so it
      lives over the reals ([R]).
    - [performance.now()] and the state of the gamepad are inputs of the
      environment: they are passed to the methods that read them.
    - Plain objects used as dictionaries ([keyStates], [scripts],
      [scriptBindings]) are finite maps over their own properties; members
      inherited from [Object.prototype] are not modelled.
    - [console] output is part of the state, so that "reported" can be
      told apart from "raised".
    - A script action is called with the object itself.  It is modelled
      as a function of the data fields of the object (channels, motor
      thrusts, key states, control rate, bindings) that may print; actions
      that reach into the script table or the list of running instances,
      which hold closures, are outside the model. *)

From Stdlib Require Import Reals Qreals QArith Qminmax Qabs Lia.
From Stdlib Require Lqa Lra.
From Stdlib Require PrimFloat.
From stdpp Require Import base strings gmap list.

Set Warnings "-register-all,-inexact-float".

Local Open Scope Q_scope.

(** [x > y] and [x >= y] as the conditions of the source evaluate them. *)
Definition Qgtb (x y : Q) : bool :=
  match x ?= y with Gt => true | _ => false end.

Definition Qgeb (x y : Q) : bool := Qle_bool y x.

(** ** Control channel engine (DroneControls.js) *)

Module Controls.

(** [this.channels] *)
Record Channels := mkChannels {
  roll : Q;
  pitch : Q;
  yaw : Q;
  throttle : Q
}.

(** [this.motorThrusts] *)
Record MotorThrusts := mkMotorThrusts {
  motor1 : Q;
  motor2 : Q;
  motor3 : Q;
  motor4 : Q
}.

(** What a script action reaches of the object it is called with: the
    fields that hold plain data.  The script table and the list of running
    instances hold the closures themselves and stay with the engine. *)
Record Fields := mkFields {
  f_channels : Channels;
  f_motorThrusts : MotorThrusts;
  f_keyStates : gmap string bool;
  f_controlRate : Q;
  f_scriptBindings : gmap string string
}.

(** A script action is a closure [(controls) => { ... }].  It may print
    lines with [console.log], assign to the fields of the object it
    receives, and it either returns or throws; what it printed and assigned
    before a throw persists. *)
Inductive ActionResult :=
| Done (out : list string) (fields : Fields)
| Thrown (out : list string) (fields : Fields).

Definition Action := Fields -> ActionResult.

(** One validated entry [{ time, action }] of a script. *)
Record ScriptAction := mkScriptAction {
  time : Q;
  action : Action
}.

(** The values a caller can hand to [registerScript]. *)
Inductive jsval :=
| JUndefined
| JNull
| JBoolean (b : bool)
| JNumber (q : Q)
| JString (s : string)
| JFunction (f : Action)
| JObject (props : list (string * jsval))
| JArray (items : list jsval).

(** [scriptInstance] objects pushed by [executeScript]. *)
Record ScriptInstance := mkScriptInstance {
  id : string;
  actions : list ScriptAction;
  startTime : Q;
  nextActionIndex : nat
}.

(** Modelled from the spec: the [GamepadHandler] class
    (utils/gamepadHandler) is not among the sources.  The specification
    describes it as exposing [connected: bool] and an ordered sequence of
    four normalized axis floats (roll, pitch, yaw, raw throttle), which is
    all that [DroneControls] reads of it through [connected] and
    [getAxes()]. *)
Record GamepadHandler := mkGamepadHandler {
  connected : bool;
  axis0 : Q;
  axis1 : Q;
  axis2 : Q;
  axis3 : Q
}.

(** Lines written to the console, one constructor per call site. *)
Inductive Message :=
| ErrActionsNotArray                                  (* registerScript, console.error *)
| ErrMalformedAction                                  (* registerScript, console.error *)
| LogRegistered (scriptId : string)                   (* registerScript, console.log *)
| LogStarted (scriptId : string)                      (* executeScript, console.log *)
| WarnNotFound (scriptId : string)                    (* executeScript, console.warn *)
| LogExecuted (n : nat) (scriptId : string) (elapsedTime : Q)
                                                      (* updateActiveScripts, console.log *)
| ErrExecuting (n : nat) (scriptId : string)          (* updateActiveScripts, console.error *)
| ActionOutput (line : string)                        (* a script action, console.log *)
| ErrUnknownScript (keyCode scriptId : string)        (* bindKeyToScript, console.error *)
| LogBound (keyCode scriptId : string).               (* bindKeyToScript, console.log *)

Definition is_error (m : Message) : bool :=
  match m with
  | ErrActionsNotArray | ErrMalformedAction | ErrExecuting _ _
  | ErrUnknownScript _ _ => true
  | _ => false
  end.

Record DroneControls := mkDroneControls {
  channels : Channels;
  motorThrusts : MotorThrusts;
  keyStates : gmap string bool;
  controlRate : Q;
  gamepadHandler : GamepadHandler;
  scripts : gmap string (list ScriptAction);
  scriptBindings : gmap string string;
  activeScripts : list ScriptInstance;
  console : list Message
}.

(** A call either returns or raises; in both cases it leaves a state. *)
Inductive Exception := TypeError.

Inductive Outcome :=
| Returns (c : DroneControls)
| Raises (e : Exception) (c : DroneControls).

Definition state_of (o : Outcome) : DroneControls :=
  match o with Returns c | Raises _ c => c end.

(** Field updates. *)
Definition set_channels (ch : Channels) (c : DroneControls) : DroneControls :=
  mkDroneControls ch (motorThrusts c) (keyStates c) (controlRate c)
    (gamepadHandler c) (scripts c) (scriptBindings c) (activeScripts c) (console c).

Definition set_motorThrusts (mt : MotorThrusts) (c : DroneControls) : DroneControls :=
  mkDroneControls (channels c) mt (keyStates c) (controlRate c)
    (gamepadHandler c) (scripts c) (scriptBindings c) (activeScripts c) (console c).

Definition set_keyStates (ks : gmap string bool) (c : DroneControls) : DroneControls :=
  mkDroneControls (channels c) (motorThrusts c) ks (controlRate c)
    (gamepadHandler c) (scripts c) (scriptBindings c) (activeScripts c) (console c).

Definition set_gamepadHandler (g : GamepadHandler) (c : DroneControls) : DroneControls :=
  mkDroneControls (channels c) (motorThrusts c) (keyStates c) (controlRate c)
    g (scripts c) (scriptBindings c) (activeScripts c) (console c).

Definition set_scripts (s : gmap string (list ScriptAction)) (c : DroneControls)
  : DroneControls :=
  mkDroneControls (channels c) (motorThrusts c) (keyStates c) (controlRate c)
    (gamepadHandler c) s (scriptBindings c) (activeScripts c) (console c).

Definition set_scriptBindings (b : gmap string string) (c : DroneControls)
  : DroneControls :=
  mkDroneControls (channels c) (motorThrusts c) (keyStates c) (controlRate c)
    (gamepadHandler c) (scripts c) b (activeScripts c) (console c).

Definition set_activeScripts (a : list ScriptInstance) (c : DroneControls)
  : DroneControls :=
  mkDroneControls (channels c) (motorThrusts c) (keyStates c) (controlRate c)
    (gamepadHandler c) (scripts c) (scriptBindings c) a (console c).

Definition say (m : Message) (c : DroneControls) : DroneControls :=
  mkDroneControls (channels c) (motorThrusts c) (keyStates c) (controlRate c)
    (gamepadHandler c) (scripts c) (scriptBindings c) (activeScripts c)
    (console c ++ [m]).

(** [this.keyStates[k]] used as a condition: a missing key is [undefined]. *)
Definition pressed (c : DroneControls) (k : string) : bool :=
  default false (keyStates c !! k).

(** Truthiness of a string: only the empty string is falsy. *)
Definition truthy_string (s : string) : bool :=
  match s with EmptyString => false | _ => true end.

(** [clampValue(value, min, max)] *)
Definition clampValue (value min max : Q) : Q :=
  Qmax min (Qmin max value).

(** [moveTowardsCenter(value, min = -1, max = 1, rate = 0.005)] *)
Definition moveTowardsCenter (value min max rate : Q) : Q :=
  let center := 0 in
  if Qgtb value center
  then Qmax center (value - rate)
  else Qmin center (value + rate).

(** [moveTowardsZero(value, rate = 0.005)] *)
Definition moveTowardsZero (value rate : Q) : Q :=
  Qmax 0 (value - rate).

(** The default of the [rate] parameter of both functions. *)
Definition defaultRate : Q := 0.005.

(** [updateKeyboardControls()] up to the call of [centerUnusedControls]:
    the eight channel keys, in the order of the source. *)
Definition keyboardChannels (c : DroneControls) : Channels :=
  let rate := controlRate c in
  let ch := channels c in
  let y1 := if pressed c "KeyA" then clampValue (yaw ch - rate) (-1) 1 else yaw ch in
  let y2 := if pressed c "KeyD" then clampValue (y1 + rate) (-1) 1 else y1 in
  let p1 := if pressed c "ArrowRight" then clampValue (pitch ch + rate) (-1) 1 else pitch ch in
  let p2 := if pressed c "ArrowLeft" then clampValue (p1 - rate) (-1) 1 else p1 in
  let r1 := if pressed c "ArrowDown" then clampValue (roll ch - rate) (-1) 1 else roll ch in
  let r2 := if pressed c "ArrowUp" then clampValue (r1 + rate) (-1) 1 else r1 in
  let t1 := if pressed c "KeyW" then clampValue (throttle ch + rate) 0 1 else throttle ch in
  let t2 := if pressed c "KeyX" then clampValue (t1 - rate) 0 1 else t1 in
  mkChannels r2 p2 y2 t2.

(** One motor: thrust rises while its digit key is held and falls
    otherwise. *)
Definition motorStep (c : DroneControls) (key : string) (thrust : Q) : Q :=
  if pressed c key
  then clampValue (thrust + controlRate c) 0 1
  else clampValue (thrust - controlRate c) 0 1.

Definition keyboardMotors (c : DroneControls) : MotorThrusts :=
  let mt := motorThrusts c in
  mkMotorThrusts (motorStep c "Digit1" (motor1 mt)) (motorStep c "Digit2" (motor2 mt))
                 (motorStep c "Digit3" (motor3 mt)) (motorStep c "Digit4" (motor4 mt)).

(** [centerUnusedControls()] *)
Definition centerUnusedControls (c : DroneControls) : DroneControls :=
  let ch := channels c in
  let y := if negb (pressed c "KeyA") && negb (pressed c "KeyD")
           then moveTowardsCenter (yaw ch) (-1) 1 defaultRate else yaw ch in
  let p := if negb (pressed c "ArrowRight") && negb (pressed c "ArrowLeft")
           then moveTowardsCenter (pitch ch) (-1) 1 defaultRate else pitch ch in
  let r := if negb (pressed c "ArrowDown") && negb (pressed c "ArrowUp")
           then moveTowardsCenter (roll ch) (-1) 1 defaultRate else roll ch in
  let t := if negb (pressed c "KeyW") && negb (pressed c "KeyX")
           then moveTowardsZero (throttle ch) defaultRate else throttle ch in
  set_channels (mkChannels r p y t) c.

(** [updateKeyboardControls()] *)
Definition updateKeyboardControls (c : DroneControls) : DroneControls :=
  let c1 := set_channels (keyboardChannels c) c in
  let c2 := set_motorThrusts (keyboardMotors c1) c1 in
  centerUnusedControls c2.

(** [updateControlChannels(deltaTime)] *)
Definition updateControlChannels (deltaTime : Q) (c : DroneControls) : DroneControls :=
  let g := gamepadHandler c in
  if connected g then
    set_channels
      (mkChannels (clampValue (axis0 g) (-1) 1)
                  (clampValue (axis1 g) (-1) 1)
                  (clampValue (axis2 g) (-1) 1)
                  (clampValue ((axis3 g + 1) / 2) 0 1)) c
  else updateKeyboardControls c.

(** [getControlInputs()] *)
Record ControlInputs := mkControlInputs {
  in_roll : Q;
  in_pitch : Q;
  in_yaw : Q;
  in_throttle : Q;
  in_motorThrusts : MotorThrusts
}.

Definition getControlInputs (c : DroneControls) : ControlInputs :=
  mkControlInputs (roll (channels c)) (pitch (channels c)) (yaw (channels c))
    (throttle (channels c))
    (mkMotorThrusts (motor1 (motorThrusts c)) (motor2 (motorThrusts c))
                    (motor3 (motorThrusts c)) (motor4 (motorThrusts c))).

(** *** Script registration *)

(** [v[name]] for [name] one of ["time"], ["action"]: [None] stands for the
    [TypeError] of reading a property of [null] or [undefined]; a primitive,
    a function or an array has no such property. *)
Fixpoint own_property (props : list (string * jsval)) (name : string) : jsval :=
  match props with
  | [] => JUndefined
  | (k, v) :: rest => if String.eqb k name then v else own_property rest name
  end.

Definition get_property (v : jsval) (name : string) : option jsval :=
  match v with
  | JUndefined | JNull => None
  | JObject props => Some (own_property props name)
  | _ => Some JUndefined
  end.

(** The validation loop of [registerScript]: the entries are visited in
    order and the first offending one decides. *)
Inductive Validation :=
| Valid (acts : list ScriptAction)
| Malformed
| Throws.

Fixpoint validate (items : list jsval) : Validation :=
  match items with
  | [] => Valid []
  | entry :: rest =>
      match get_property entry "time" with
      | None => Throws
      | Some (JNumber t) =>
          match get_property entry "action" with
          | Some (JFunction f) =>
              match validate rest with
              | Valid acts => Valid (mkScriptAction t f :: acts)
              | other => other
              end
          | _ => Malformed
          end
      | Some _ => Malformed
      end
  end.

(** [registerScript(scriptId, scriptActions)] *)
Definition registerScript (scriptId : string) (scriptActions : jsval)
    (c : DroneControls) : Outcome :=
  match scriptActions with
  | JArray items =>
      match validate items with
      | Valid acts =>
          Returns (say (LogRegistered scriptId)
                     (set_scripts (<[scriptId := acts]> (scripts c)) c))
      | Malformed => Returns (say ErrMalformedAction c)
      | Throws => Raises TypeError c
      end
  | _ => Returns (say ErrActionsNotArray c)
  end.

(** [executeScript(scriptId)]; [now] is the value of [performance.now()]. *)
Definition executeScript (scriptId : string) (now : Q) (c : DroneControls)
  : DroneControls :=
  match scripts c !! scriptId with
  | Some script =>
      let scriptInstance := mkScriptInstance scriptId script now 0 in
      say (LogStarted scriptId)
        (set_activeScripts (activeScripts c ++ [scriptInstance]) c)
  | None => say (WarnNotFound scriptId) c
  end.

(** [bindKeyToScript(keyCode, scriptId)] *)
Definition bindKeyToScript (keyCode scriptId : string) (c : DroneControls)
  : DroneControls :=
  match scripts c !! scriptId with
  | None => say (ErrUnknownScript keyCode scriptId) c
  | Some _ =>
      say (LogBound keyCode scriptId)
        (set_scriptBindings (<[keyCode := scriptId]> (scriptBindings c)) c)
  end.

(** [onKeyDown(event)] with [event.code = key]. *)
Definition onKeyDown (key : string) (now : Q) (c : DroneControls) : DroneControls :=
  match scriptBindings c !! key with
  | Some scriptId =>
      if truthy_string scriptId
      then executeScript scriptId now c
      else set_keyStates (<[key := true]> (keyStates c)) c
  | None => set_keyStates (<[key := true]> (keyStates c)) c
  end.

(** [onKeyUp(event)] with [event.code = key]. *)
Definition onKeyUp (key : string) (c : DroneControls) : DroneControls :=
  match scriptBindings c !! key with
  | Some scriptId =>
      if truthy_string scriptId
      then c
      else set_keyStates (<[key := false]> (keyStates c)) c
  | None => set_keyStates (<[key := false]> (keyStates c)) c
  end.

(** *** Running scripts *)

(** The fields of [this] an action is handed, and the object after the
    action has printed [out] and left the fields as [f]. *)
Definition fieldsOf (c : DroneControls) : Fields :=
  mkFields (channels c) (motorThrusts c) (keyStates c) (controlRate c)
    (scriptBindings c).

Definition afterAction (out : list string) (f : Fields) (c : DroneControls)
  : DroneControls :=
  mkDroneControls (f_channels f) (f_motorThrusts f) (f_keyStates f) (f_controlRate f)
    (gamepadHandler c) (scripts c) (f_scriptBindings f) (activeScripts c)
    (console c ++ map ActionOutput out).

(** The body of the [while] loop of [updateActiveScripts] for the action
    at index [idx]: call [action(this)] inside [try], log the success or
    the caught error.  The cursor increment is done by the caller. *)
Definition execute (elapsedTime : Q) (scriptId : string) (idx : nat)
    (a : ScriptAction) (c : DroneControls) : DroneControls :=
  match action a (fieldsOf c) with
  | Done out f =>
      say (LogExecuted (idx + 1) scriptId elapsedTime) (afterAction out f c)
  | Thrown out f =>
      say (ErrExecuting (idx + 1) scriptId) (afterAction out f c)
  end.

(** The [while] loop: [pending] is [actions.slice(nextActionIndex)] and
    [idx] is [nextActionIndex].  The loop stops at the end of the list or at
    the first action that is not yet due. *)
Fixpoint runDue (elapsedTime : Q) (scriptId : string) (pending : list ScriptAction)
    (idx : nat) (c : DroneControls) : nat * DroneControls :=
  match pending with
  | [] => (idx, c)
  | a :: rest =>
      if Qgeb elapsedTime (time a)
      then runDue elapsedTime scriptId rest (S idx) (execute elapsedTime scriptId idx a c)
      else (idx, c)
  end.

(** The callback given to [filter], without its return value. *)
Definition stepInstance (currentTime : Q) (inst : ScriptInstance) (c : DroneControls)
  : ScriptInstance * DroneControls :=
  let elapsedTime := currentTime - startTime inst in
  let '(idx, c') :=
    runDue elapsedTime (id inst) (drop (nextActionIndex inst) (actions inst))
      (nextActionIndex inst) c in
  (mkScriptInstance (id inst) (actions inst) (startTime inst) idx, c').

(** The return value of the callback. *)
Definition remaining (inst : ScriptInstance) : bool :=
  (nextActionIndex inst <? length (actions inst))%nat.

(** [this.activeScripts.filter(...)]: the instances are visited in list
    order and each sees the state left by the previous ones. *)
Fixpoint filterScripts (currentTime : Q) (l : list ScriptInstance) (c : DroneControls)
  : list ScriptInstance * DroneControls :=
  match l with
  | [] => ([], c)
  | inst :: rest =>
      let '(inst', c1) := stepInstance currentTime inst c in
      let '(kept, c2) := filterScripts currentTime rest c1 in
      (if remaining inst' then inst' :: kept else kept, c2)
  end.

(** [updateActiveScripts(deltaTime)]; [currentTime] is [performance.now()]. *)
Definition updateActiveScripts (deltaTime currentTime : Q) (c : DroneControls)
  : DroneControls :=
  let '(kept, c') := filterScripts currentTime (activeScripts c) c in
  set_activeScripts kept c'.

(** [update(deltaTime)]: [pad] is what [gamepadHandler.update()] reads from
    the device and [now] what [performance.now()] returns. *)
Definition update (deltaTime : Q) (pad : GamepadHandler) (now : Q) (c : DroneControls)
  : DroneControls :=
  let c1 := set_gamepadHandler pad c in
  let c2 := updateControlChannels deltaTime c1 in
  updateActiveScripts deltaTime now c2.

(** *** Construction *)

(** The fields once an action has left the channels as [ch]. *)
Definition assignChannels (ch : Channels) (f : Fields) : Fields :=
  mkFields ch (f_motorThrusts f) (f_keyStates f) (f_controlRate f) (f_scriptBindings f).

(** [(controls) => { controls.channels.throttle = v; }] and the like. *)
Definition set_throttle (v : Q) : Action :=
  fun f => let ch := f_channels f in
    Done [] (assignChannels (mkChannels (roll ch) (pitch ch) (yaw ch) v) f).
Definition set_roll (v : Q) : Action :=
  fun f => let ch := f_channels f in
    Done [] (assignChannels (mkChannels v (pitch ch) (yaw ch) (throttle ch)) f).
Definition set_pitch (v : Q) : Action :=
  fun f => let ch := f_channels f in
    Done [] (assignChannels (mkChannels (roll ch) v (yaw ch) (throttle ch)) f).
Definition set_yaw (v : Q) : Action :=
  fun f => let ch := f_channels f in
    Done [] (assignChannels (mkChannels (roll ch) (pitch ch) v (throttle ch)) f).

(** [(controls) => { console.log(line); ... }] *)
Definition logging (line : string) (body : Action) : Action :=
  fun f =>
    match body f with
    | Done out f' => Done (line :: out) f'
    | Thrown out f' => Thrown (line :: out) f'
    end.

Definition entry (t : Q) (f : Action) : jsval :=
  JObject [("time", JNumber t); ("action", JFunction f)].

(** The two scripts of [registerDefaultScripts]. *)
Definition hoverThrottle : Action :=
  logging "Hover Script: Setting throttle to mid-point for hovering." (set_throttle 0.5).
Definition hoverRoll : Action := logging "Hover Script: Centering roll." (set_roll 0).
Definition hoverPitch : Action := logging "Hover Script: Centering pitch." (set_pitch 0).
Definition hoverYaw : Action := logging "Hover Script: Centering yaw." (set_yaw 0).

Definition hoverScript : jsval :=
  JArray [entry 0 hoverThrottle; entry 1000 hoverRoll;
          entry 1000 hoverPitch; entry 1000 hoverYaw].

Definition yawSpinStart : Action :=
  logging "Yaw Spin Script: Initiating yaw spin" (set_yaw 0.2).
Definition yawSpinStop : Action :=
  logging "Yaw Spin Script: Stopping yaw spin" (set_yaw 0).

Definition yawSpinScript : jsval :=
  JArray [entry 0 yawSpinStart; entry 5000 yawSpinStop].

(** Sequencing of calls that may raise. *)
Definition andThen (o : Outcome) (k : DroneControls -> Outcome) : Outcome :=
  match o with
  | Returns c => k c
  | Raises e c => Raises e c
  end.

(** [registerDefaultScripts()] *)
Definition registerDefaultScripts (c : DroneControls) : Outcome :=
  andThen (registerScript "hover" hoverScript c) (fun c1 =>
  let c2 := bindKeyToScript "KeyS" "hover" c1 in
  andThen (registerScript "yawSpin" yawSpinScript c2) (fun c3 =>
  Returns (bindKeyToScript "KeyY" "yawSpin" c3))).

(** The fields as the constructor initializes them; [pad] is the freshly
    created [GamepadHandler]. *)
Definition initialFields (pad : GamepadHandler) : DroneControls :=
  mkDroneControls (mkChannels 0 0 0 0.5)
    (mkMotorThrusts 0.6125 0.6125 0.6125 0.6125)
    ∅ 0.4 pad ∅ ∅ [] [].

(** [new DroneControls()] *)
Definition constructor (pad : GamepadHandler) : Outcome :=
  registerDefaultScripts (initialFields pad).

(** *** Describing a run of scripts *)

(** The number of actions at the head of [pending] that are due. *)
Fixpoint dueCount (elapsedTime : Q) (pending : list ScriptAction) : nat :=
  match pending with
  | [] => 0
  | a :: rest => if Qgeb elapsedTime (time a) then S (dueCount elapsedTime rest) else 0
  end.

(** Each of [acts] executed once, in order, numbered from [idx]. *)
Fixpoint executeAll (elapsedTime : Q) (scriptId : string) (idx : nat)
    (acts : list ScriptAction) (c : DroneControls) : DroneControls :=
  match acts with
  | [] => c
  | a :: rest =>
      executeAll elapsedTime scriptId (S idx) rest (execute elapsedTime scriptId idx a c)
  end.

(** The action number a console line reports, if it reports an execution. *)
Definition actionNumber (m : Message) : option nat :=
  match m with
  | LogExecuted n _ _ | ErrExecuting n _ => Some n
  | _ => None
  end.

(** One instance followed through the updates made at [times]. *)
Fixpoint runInstance (times : list Q) (inst : ScriptInstance) (c : DroneControls)
  : ScriptInstance * DroneControls :=
  match times with
  | [] => (inst, c)
  | t :: later =>
      let '(inst', c') := stepInstance t inst c in runInstance later inst' c'
  end.

(** The offsets of a script are in ascending order. *)
Fixpoint ascending (acts : list ScriptAction) : Prop :=
  match acts with
  | [] => True
  | a :: rest => Forall (fun b => time a <= time b) rest /\ ascending rest
  end.

(** An update of [inst] passes every action that is due and that the
    cursor had not passed before. *)
Definition executesEveryDue (now : Q) (inst : ScriptInstance) (c : DroneControls)
  : Prop :=
  forall (j : nat) (a : ScriptAction),
    (nextActionIndex inst <= j)%nat -> actions inst !! j = Some a ->
    time a <= now - startTime inst ->
    (j < nextActionIndex (fst (stepInstance now inst c)))%nat.

(** The part of [update] that precedes [updateActiveScripts]. *)
Definition channelStep (deltaTime : Q) (pad : GamepadHandler) (c : DroneControls)
  : DroneControls :=
  updateControlChannels deltaTime (set_gamepadHandler pad c).

(** The actions an update at [now] is to execute for [inst]: those from the
    cursor up to the first one that is not due. *)
Definition dueActions (now : Q) (inst : ScriptInstance) : list ScriptAction :=
  let pending := drop (nextActionIndex inst) (actions inst) in
  take (dueCount (now - startTime inst) pending) pending.

(** [inst] with its cursor moved past them. *)
Definition advance (now : Q) (inst : ScriptInstance) : ScriptInstance :=
  mkScriptInstance (id inst) (actions inst) (startTime inst)
    (nextActionIndex inst + length (dueActions now inst)).

(** Every instance of [l], in list order, executes its due actions once
    each, in the order of the script. *)
Fixpoint executeDue (now : Q) (l : list ScriptInstance) (c : DroneControls)
  : DroneControls :=
  match l with
  | [] => c
  | inst :: rest =>
      executeDue now rest
        (executeAll (now - startTime inst) (id inst) (nextActionIndex inst)
           (dueActions now inst) c)
  end.

(** The cursors after the updates made at [times]. *)
Definition advanceThrough (times : list Q) (inst : ScriptInstance) : ScriptInstance :=
  fold_left (fun i t => advance t i) times inst.

(** No action of [inst] is executed by an update at [now]. *)
Definition nothingDue (now : Q) (inst : ScriptInstance) : Prop :=
  dueActions now inst = [].

(** Every action of [inst] is due at [now]. *)
Definition allDue (now : Q) (inst : ScriptInstance) : Prop :=
  Forall (fun a => time a <= now - startTime inst) (actions inst).

(** *** Driving the engine *)

(** The calls the page and the frame loop make on a [DroneControls]. *)
Inductive Event :=
| KeyDown (key : string) (now : Q)
| KeyUp (key : string)
| Update (deltaTime : Q) (pad : GamepadHandler) (now : Q)
| RegisterScript (scriptId : string) (scriptActions : jsval)
| BindKeyToScript (keyCode scriptId : string)
| ExecuteScript (scriptId : string) (now : Q).

(** A call that raises leaves the object as it is at the throw. *)
Definition handle (e : Event) (c : DroneControls) : DroneControls :=
  match e with
  | KeyDown key now => onKeyDown key now c
  | KeyUp key => onKeyUp key c
  | Update deltaTime pad now => update deltaTime pad now c
  | RegisterScript scriptId scriptActions =>
      state_of (registerScript scriptId scriptActions c)
  | BindKeyToScript keyCode scriptId => bindKeyToScript keyCode scriptId c
  | ExecuteScript scriptId now => executeScript scriptId now c
  end.

Definition run (events : list Event) (c : DroneControls) : DroneControls :=
  fold_left (fun c e => handle e c) events c.

(** The documented ranges of the channels and of the motor thrusts. *)
Definition channelsInRange (ch : Channels) : Prop :=
  (-1 <= roll ch /\ roll ch <= 1) /\ (-1 <= pitch ch /\ pitch ch <= 1) /\
  (-1 <= yaw ch /\ yaw ch <= 1) /\ (0 <= throttle ch /\ throttle ch <= 1).

Definition motorsInRange (mt : MotorThrusts) : Prop :=
  (0 <= motor1 mt /\ motor1 mt <= 1) /\ (0 <= motor2 mt /\ motor2 mt <= 1) /\
  (0 <= motor3 mt /\ motor3 mt <= 1) /\ (0 <= motor4 mt /\ motor4 mt <= 1).

Definition inRange (c : DroneControls) : Prop :=
  channelsInRange (channels c) /\ motorsInRange (motorThrusts c).

(** A script action that keeps in-range values in range, whether it
    returns or throws. *)
Definition rangeSafe (f : Action) : Prop :=
  forall fields,
    channelsInRange (f_channels fields) -> motorsInRange (f_motorThrusts fields) ->
    match f fields with
    | Done _ fields' | Thrown _ fields' =>
        channelsInRange (f_channels fields') /\ motorsInRange (f_motorThrusts fields')
    end.

Definition scriptSafe (acts : list ScriptAction) : Prop :=
  Forall (fun a => rangeSafe (action a)) acts.

Definition entrySafe (v : jsval) : Prop :=
  forall f, get_property v "action" = Some (JFunction f) -> rangeSafe f.

(** Every script handed to [registerScript] is made of such actions. *)
Definition eventSafe (e : Event) : Prop :=
  match e with
  | RegisterScript _ (JArray items) => Forall entrySafe items
  | _ => True
  end.

(** A new object, and the same after W has been held for two updates. *)
Definition fresh : DroneControls :=
  state_of (constructor (mkGamepadHandler false 0 0 0 0)).

Definition fullThrottle : DroneControls :=
  run [KeyDown "KeyW" 0; Update 16 (mkGamepadHandler false 0 0 0 0) 16;
       Update 16 (mkGamepadHandler false 0 0 0 0) 32] fresh.


(** An update, and the time at which it is made. *)
Definition isUpdate (e : Event) : Prop :=
  match e with Update _ _ _ => True | _ => False end.

Definition updateTimes (events : list Event) : list Q :=
  omap (fun e => match e with Update _ _ now => Some now | _ => None end) events.






(** *** Notions used by the proofs *)


(** What the execution of script actions leaves alone. *)
Definition sameTables (c c' : DroneControls) : Prop :=
  gamepadHandler c' = gamepadHandler c /\ scripts c' = scripts c /\
  activeScripts c' = activeScripts c.



(** The registered scripts and the running instances are made of
    range-keeping actions. *)
Definition wellScripted (c : DroneControls) : Prop :=
  (forall sid acts, scripts c !! sid = Some acts -> scriptSafe acts) /\
  Forall (fun inst => scriptSafe (actions inst)) (activeScripts c).

(** A script whose second action is due before its first. *)
Definition lateFirst : DroneControls :=
  run [RegisterScript "late" (JArray [entry 1000 (set_roll 1); entry 0 (set_yaw 1)]);
       ExecuteScript "late" 0]
      (state_of (constructor (mkGamepadHandler false 0 0 0 0))).



(** A script registered under the empty id and bound to W. *)
Definition emptyIdBound : DroneControls :=
  run [RegisterScript EmptyString (JArray [entry 0 (set_roll 0)]);
       BindKeyToScript "KeyW" EmptyString] fresh.

(** *** Notions used by the further properties *)

(** [v] is an entry [{ time: t, action: f }] that passes the checks of
    [registerScript]. *)
Definition wellFormedEntry (v : jsval) (a : ScriptAction) : Prop :=
  get_property v "time" = Some (JNumber (time a)) /\
  get_property v "action" = Some (JFunction (action a)).


(** The actions of the default hover script, as registered. *)
Definition hoverActions : list ScriptAction :=
  [mkScriptAction 0 hoverThrottle; mkScriptAction 1000 hoverRoll;
   mkScriptAction 1000 hoverPitch; mkScriptAction 1000 hoverYaw].

(** The actions of the default yaw spin script, as registered. *)
Definition yawSpinActions : list ScriptAction :=
  [mkScriptAction 0 yawSpinStart; mkScriptAction 5000 yawSpinStop].


End Controls.

(** ** The centering functions in the arithmetic of the source

    JavaScript numbers are IEEE 754 binary64.  The functions below are
    [moveTowardsCenter] and [moveTowardsZero] once more, over the
    floating-point numbers of the kernel, to evaluate them as the browser
    does. *)

Module Binary64.

Import PrimFloat.

Local Open Scope float_scope.

(** [Math.max] and [Math.min]: [NaN] is contagious and [-0 < +0]. *)
Definition max (a b : float) : float :=
  if (is_nan a || is_nan b)%bool then nan
  else if a <? b then b
  else if b <? a then a
  else if get_sign a then b else a.

Definition min (a b : float) : float :=
  if (is_nan a || is_nan b)%bool then nan
  else if a <? b then a
  else if b <? a then b
  else if get_sign a then a else b.

(** [moveTowardsCenter(value, min = -1, max = 1, rate = 0.005)] *)
Definition moveTowardsCenter (value lo hi rate : float) : float :=
  let center := 0 in
  if center <? value
  then max center (value - rate)
  else min center (value + rate).

(** [moveTowardsZero(value, rate = 0.005)] *)
Definition moveTowardsZero (value rate : float) : float :=
  max 0 (value - rate).

Definition defaultRate : float := 0.005.




Definition controlRate : float := 0.4.


(** The distance between two values, [a - b]. *)
Definition change (a b : float) : float := a - b.


End Binary64.

(** ** Flight dynamics (PhysicsEngine.js) *)

Module Physics.

Local Open Scope R_scope.

(** Vectors of three.js and of the rigid body provider. *)
Module Vector3.

Record t := mk { x : R; y : R; z : R }.

Definition add (a b : t) : t := mk (x a + x b) (y a + y b) (z a + z b).

Definition scale (k : R) (a : t) : t := mk (x a * k) (y a * k) (z a * k).

Definition zero : t := mk 0 0 0.

(** [length()] *)
Definition length (a : t) : R := sqrt (x a * x a + y a * y a + z a * z a).

(** The unit vector of [a], defined for [a] of non-zero length. *)
End Vector3.

Record Quaternion := mkQuaternion { qx : R; qy : R; qz : R; qw : R }.

Definition identity : Quaternion := mkQuaternion 0 0 0 1.

(** [THREE.Vector3.applyQuaternion]: library code, the product q v q^-1
    written out as three.js computes it. *)
Definition applyQuaternion (v : Vector3.t) (q : Quaternion) : Vector3.t :=
  let '(x, y, z) := (Vector3.x v, Vector3.y v, Vector3.z v) in
  let '(a, b, c, w) := (qx q, qy q, qz q, qw q) in
  let ix := w * x + b * z - c * y in
  let iy := w * y + c * x - a * z in
  let iz := w * z + a * y - b * x in
  let iw := - a * x - b * y - c * z in
  Vector3.mk (ix * w + iw * - a + iy * - c - iz * - b)
             (iy * w + iw * - b + iz * - a - ix * - c)
             (iz * w + iw * - c + ix * - b - iy * - a).

(** [this.settings] *)
Record Settings := mkSettings {
  droneMass : R;
  dragCoefficient : R;
  liftCoefficient : R;
  frontalArea : R;
  airDensity : R;
  maxThrust : R;
  torqueStrength : R;
  maxVelocity : R;
  maxAngularVelocity : R;
  useIndividualMotors : bool;
  motorPositions : list Vector3.t
}.

(** The values assigned by the constructor. *)
Definition defaultSettings : Settings :=
  mkSettings 0.25 0.47 0.3 0.25 1.225 1 0.5 50 10 false
    [Vector3.mk 1 0 1; Vector3.mk (-1) 0 1; Vector3.mk (-1) 0 (-1); Vector3.mk 1 0 (-1)].

(** The same with the individual motor mode switched on. *)
Definition individualSettings : Settings :=
  mkSettings 0.25 0.47 0.3 0.25 1.225 1 0.5 50 10 true (motorPositions defaultSettings).

(** What the engine asks of the rigid body of the drone. *)
Inductive Call :=
| applyCentralForce (force : Vector3.t)
| applyForce (force position : Vector3.t)
| applyTorque (torque : Vector3.t).

(** The world transform of the drone body. *)
Record Transform := mkTransform {
  getOrigin : Vector3.t;
  getRotation : Quaternion
}.

(** [motorThrusts[`motor${i}`]] for i = 1..4, read from the snapshot returned
    by [getControlInputs()]. *)
Definition motorThrust (inputs : Controls.ControlInputs) (i : nat) : option R :=
  let mt := Controls.in_motorThrusts inputs in
  match i with
  | 1%nat => Some (Q2R (Controls.motor1 mt))
  | 2%nat => Some (Q2R (Controls.motor2 mt))
  | 3%nat => Some (Q2R (Controls.motor3 mt))
  | 4%nat => Some (Q2R (Controls.motor4 mt))
  | _ => None
  end.

(** The body of the [for] loop of the individual motor mode.  [None] is the
    [TypeError] of cloning a motor position that the settings do not have. *)
Definition motorCall (s : Settings) (inputs : Controls.ControlInputs)
    (tr : Transform) (i : nat) : option (list Call) :=
  match motorThrust inputs i with
  | None => Some []
  | Some thrust =>
      let thrustLocal := Vector3.mk 0 (thrust * maxThrust s) 0 in
      let thrustWorld := applyQuaternion thrustLocal (getRotation tr) in
      match motorPositions s !! (i - 1)%nat with
      | None => None
      | Some motorPositionLocal =>
          let motorPositionWorld :=
            Vector3.add (applyQuaternion motorPositionLocal (getRotation tr))
                        (getOrigin tr) in
          Some [applyForce thrustWorld motorPositionWorld]
      end
  end.

Fixpoint motorLoop (s : Settings) (inputs : Controls.ControlInputs)
    (tr : Transform) (indices : list nat) : option (list Call) :=
  match indices with
  | [] => Some []
  | i :: rest =>
      match motorCall s inputs tr i with
      | None => None
      | Some calls =>
          match motorLoop s inputs tr rest with
          | None => None
          | Some more => Some (calls ++ more)
          end
      end
  end.

(** [applyControlsToDrone()]: the calls made on the drone body, in order. *)
Definition applyControlsToDrone (s : Settings) (controls : Controls.DroneControls)
    (droneTransform : Transform) : option (list Call) :=
  let inputs := Controls.getControlInputs controls in
  let threeQuat := getRotation droneTransform in
  if useIndividualMotors s then
    motorLoop s inputs droneTransform [1; 2; 3; 4]%nat
  else
    let thrustForce := Q2R (Controls.in_throttle inputs) * maxThrust s in
    let thrustWorld := applyQuaternion (Vector3.mk 0 thrustForce 0) threeQuat in
    let torqueLocal :=
      Vector3.mk (torqueStrength s * Q2R (Controls.in_roll inputs))
                 (torqueStrength s * - Q2R (Controls.in_yaw inputs))
                 (torqueStrength s * Q2R (Controls.in_pitch inputs)) in
    let torqueWorld := applyQuaternion torqueLocal threeQuat in
    Some [applyCentralForce thrustWorld; applyTorque torqueWorld].

(** The force a call contributes to the body. *)
Definition forceOf (c : Call) : Vector3.t :=
  match c with
  | applyCentralForce f | applyForce f _ => f
  | applyTorque _ => Vector3.zero
  end.

Definition netForce (calls : list Call) : Vector3.t :=
  fold_right (fun c acc => Vector3.add (forceOf c) acc) Vector3.zero calls.

(** The velocity limit of [updateMeshPositions], for one velocity vector. *)
Definition limit (maxSpeed : R) (velocity : Vector3.t) : Vector3.t :=
  let currentSpeed := Vector3.length velocity in
  if Rlt_dec maxSpeed currentSpeed
  then Vector3.scale (maxSpeed / currentSpeed) velocity
  else velocity.

(** An entry of [this.rigidBodies], as far as the velocity limit reads and
    writes it.  Every entry is pushed by [createDronePhysics] with a motion
    state, so [getMotionState()] is never null for a tracked body. *)
Record Body := mkBody {
  getLinearVelocity : Vector3.t;
  getAngularVelocity : Vector3.t
}.

(** [updateMeshPositions()], velocities only. *)
Definition updateMeshPositions (s : Settings) (rigidBodies : list Body) : list Body :=
  map (fun b => mkBody (limit (maxVelocity s) (getLinearVelocity b))
                       (limit (maxAngularVelocity s) (getAngularVelocity b)))
      rigidBodies.

(** *** Aerodynamics *)

(** [btVector3.normalize()]: library code, division by the length. *)
Definition btNormalize (a : Vector3.t) : Vector3.t :=
  Vector3.scale (1 / Vector3.length a) a.

(** [THREE.Vector3.normalize()]: library code,
    [divideScalar(this.length() || 1)]. *)
Definition threeNormalize (a : Vector3.t) : Vector3.t :=
  let l := Vector3.length a in
  Vector3.scale (1 / (if Req_dec_T l 0 then 1 else l)) a.

Definition dot (a b : Vector3.t) : R :=
  Vector3.x a * Vector3.x b + Vector3.y a * Vector3.y b + Vector3.z a * Vector3.z b.


(** [applyAerodynamics()]: the calls made on the drone body, in order;
    [velocity] is its linear velocity and [droneTransform] its world
    transform. *)
Definition applyAerodynamics (s : Settings) (velocity : Vector3.t)
    (droneTransform : Transform) : list Call :=
  let speed := Vector3.length velocity in
  let dragMagnitude :=
    0.5 * dragCoefficient s * frontalArea s * airDensity s * speed * speed in
  let drag :=
    if Rlt_dec 0 speed then
      let dragForce :=
        btNormalize (Vector3.mk (- Vector3.x velocity) (- Vector3.y velocity)
                                (- Vector3.z velocity)) in
      [applyCentralForce (Vector3.scale dragMagnitude dragForce)]
    else [] in
  let liftMagnitude := 0.5 * liftCoefficient s * airDensity s * speed * speed in
  let upVector :=
    threeNormalize (applyQuaternion (Vector3.mk 0 1 0) (getRotation droneTransform)) in
  let liftForce :=
    Vector3.mk (Vector3.x upVector * liftMagnitude) (Vector3.y upVector * liftMagnitude)
               (Vector3.z upVector * liftMagnitude) in
  drag ++ [applyCentralForce liftForce].

(** *** Mesh synchronisation *)







End Physics.

(** ** The earlier flight dynamics (the second PhysicsEngine.js) *)

Module LegacyPhysics.

Import Physics.

Local Open Scope R_scope.

(** [applyControlsToDrone()] *)
Definition applyControlsToDrone (controls : Controls.DroneControls)
    (droneTransform : Transform) : list Call :=
  let inputs := Controls.getControlInputs controls in
  let maxThrust := 9.81 * 2 in
  let thrustForce := Q2R (Controls.in_throttle inputs) * maxThrust in
  let torqueStrength := 0.5 in
  let threeQuat := getRotation droneTransform in
  let thrustWorld := applyQuaternion (Vector3.mk 0 thrustForce 0) threeQuat in
  let torqueLocal :=
    applyQuaternion
      (Vector3.mk (torqueStrength * Q2R (Controls.in_roll inputs))
                  (torqueStrength * - Q2R (Controls.in_yaw inputs))
                  (torqueStrength * Q2R (Controls.in_pitch inputs)))
      threeQuat in
  [applyCentralForce thrustWorld; applyTorque torqueLocal].

(** [applyAerodynamics()] *)
Definition applyAerodynamics (velocity : Vector3.t) (droneTransform : Transform)
  : list Call :=
  let speed := Vector3.length velocity in
  let airDensity := 1.225 in
  let dragCoefficient := 0.47 in
  let frontalArea := 0.25 in
  let dragMagnitude := 0.5 * dragCoefficient * frontalArea * airDensity * speed * speed in
  let drag :=
    if Rlt_dec 0 speed then
      let dragForce :=
        btNormalize (Vector3.mk (- Vector3.x velocity) (- Vector3.y velocity)
                                (- Vector3.z velocity)) in
      [applyCentralForce (Vector3.scale dragMagnitude dragForce)]
    else [] in
  let liftCoefficient := 0.1 in
  let liftMagnitude := 0.5 * liftCoefficient * airDensity * speed * speed in
  let upVector :=
    threeNormalize (applyQuaternion (Vector3.mk 0 1 0) (getRotation droneTransform)) in
  let liftForce :=
    Vector3.mk (Vector3.x upVector * liftMagnitude) (Vector3.y upVector * liftMagnitude)
               (Vector3.z upVector * liftMagnitude) in
  drag ++ [applyCentralForce liftForce].

(** [updateMeshPositions()], velocities only. *)
Definition updateMeshPositions (rigidBodies : list Body) : list Body :=
  map (fun b => mkBody (limit 50 (getLinearVelocity b))
                       (limit 10 (getAngularVelocity b)))
      rigidBodies.

(** The settings under which the later engine does what this one does. *)
Definition legacySettings : Settings :=
  mkSettings 0.25 0.47 0.1 0.25 1.225 (9.81 * 2) 0.5 50 10 false
    (motorPositions defaultSettings).

End LegacyPhysics.

(** ** First person view capture (utils/fpvUtils.js) *)

Module Fpv.

(** [fpvRenderer.domElement] *)
Record Canvas := mkCanvas { width : nat; height : nat }.

(** A renderer: its canvas, if it has one, and the bytes of its current
    framebuffer in the order [gl.readPixels] delivers them. *)
Record Renderer := mkRenderer {
  domElement : option Canvas;
  framebuffer : nat -> Byte.byte
}.

Inductive Report :=
| LogDimensions (width height : nat)
| ErrZeroSize
| ErrNotInitialized
| ErrInvalidPixelData.

(** [gl.readPixels(0, 0, width, height, RGBA, UNSIGNED_BYTE, pixelData)] on
    a fresh [Uint8Array] of [n] bytes: every byte of the array is written,
    and the array keeps its length. *)
Definition readPixels (r : Renderer) (n : nat) : list Byte.byte :=
  map (framebuffer r) (seq 0 n).

(** [captureFPVSnapshot(fpvRenderer)]: the returned array ([None] for
    [null]) and the console lines. *)
Definition captureFPVSnapshot (fpvRenderer : option Renderer)
  : option (list Byte.byte) * list Report :=
  match fpvRenderer with
  | Some r =>
      match domElement r with
      | Some canvas =>
          let w := width canvas in
          let h := height canvas in
          if (w =? 0)%nat || (h =? 0)%nat
          then (None, [LogDimensions w h; ErrZeroSize])
          else (Some (readPixels r (w * h * 4)), [LogDimensions w h])
      | None => (None, [ErrNotInitialized])
      end
  | None => (None, [ErrNotInitialized])
  end.

(** [displayImage(pixelData, width, height)]: the image put on the page, or
    the error line. *)
Definition displayImage (pixelData : option (list Byte.byte)) (width height : nat)
  : option (list Byte.byte) * list Report :=
  match pixelData with
  | Some data =>
      if negb (length data =? width * height * 4)%nat
      then (None, [ErrInvalidPixelData])
      else (Some data, [])
  | None => (None, [ErrInvalidPixelData])
  end.

End Fpv.

(** * Properties *)

(** ** Rational arithmetic of the source's conditions *)

Section Arith.

Import Lqa.
Local Open Scope Q_scope.

Lemma Qgtb_true (x y : Q) : Qgtb x y = true <-> y < x.
Proof.
  unfold Qgtb. destruct (Qcompare_spec x y) as [H|H|H]; split; intros;
    try easy; try lra; exfalso; lra.
Qed.

Lemma Qgtb_false (x y : Q) : Qgtb x y = false <-> x <= y.
Proof.
  unfold Qgtb. destruct (Qcompare_spec x y) as [H|H|H]; split; intros;
    try easy; try lra; exfalso; lra.
Qed.

Lemma Qgeb_true (x y : Q) : Qgeb x y = true <-> y <= x.
Proof. unfold Qgeb. apply Qle_bool_iff. Qed.

Lemma Qgeb_false (x y : Q) : Qgeb x y = false <-> x < y.
Proof.
  unfold Qgeb. split; intros H.
  - apply Qnot_le_lt. intros Hle. apply Qle_bool_iff in Hle. congruence.
  - destruct (Qle_bool y x) eqn:E; [|reflexivity].
    apply Qle_bool_iff in E. lra.
Qed.

Lemma Qhalf (x : Q) : x / 2 == x * (1 # 2).
Proof. reflexivity. Qed.

End Arith.

(** Case analysis on every [Qmax] and [Qmin] of the goal, then linear
    arithmetic. *)
Ltac minmax :=
  repeat match goal with
  | |- context [Qmax ?a ?b] =>
      let m := fresh "m" in
      pose proof (Q.max_spec a b); set (m := Qmax a b) in *; clearbody m
  | |- context [Qmin ?a ?b] =>
      let m := fresh "m" in
      pose proof (Q.min_spec a b); set (m := Qmin a b) in *; clearbody m
  | _ : context [Qmax ?a ?b] |- _ =>
      let m := fresh "m" in
      pose proof (Q.max_spec a b); set (m := Qmax a b) in *; clearbody m
  | _ : context [Qmin ?a ?b] |- _ =>
      let m := fresh "m" in
      pose proof (Q.min_spec a b); set (m := Qmin a b) in *; clearbody m
  end;
  repeat match goal with
  | H : (_ /\ _) \/ (_ /\ _) |- _ => destruct H as [[? ?]|[? ?]]
  end;
  try Lqa.lra.

(** Split a conjunction into its parts, and nothing else. *)
Ltac conjs := repeat match goal with |- _ /\ _ => split end.

Module ControlsProofs.

Import Controls Lqa.

Local Open Scope Q_scope.

(** *** Clamping and centering *)

Lemma clampValue_bounds (v lo hi : Q) :
  lo <= hi -> lo <= clampValue v lo hi /\ clampValue v lo hi <= hi.
Proof. intros H. unfold clampValue. split; minmax. Qed.

Lemma clampValue_id (v lo hi : Q) :
  lo <= v -> v <= hi -> clampValue v lo hi == v.
Proof. intros H1 H2. unfold clampValue. minmax. Qed.

Lemma moveTowardsCenter_pos (v lo hi r : Q) :
  0 < v -> moveTowardsCenter v lo hi r = Qmax 0 (v - r).
Proof.
  intros H. unfold moveTowardsCenter.
  apply Qgtb_true in H. now rewrite H.
Qed.

Lemma moveTowardsCenter_nonpos (v lo hi r : Q) :
  v <= 0 -> moveTowardsCenter v lo hi r = Qmin 0 (v + r).
Proof.
  intros H. unfold moveTowardsCenter.
  apply Qgtb_false in H. now rewrite H.
Qed.

(** One centering step on a channel: the value keeps its sign, moves by
    exactly [r] when it is at least [r] away from 0 and lands on 0
    otherwise. *)
Lemma moveTowardsCenter_step (v lo hi r : Q) :
  0 <= r ->
  let v' := moveTowardsCenter v lo hi r in
  (0 <= v -> 0 <= v' /\ v' <= v) /\
  (v <= 0 -> v <= v' /\ v' <= 0) /\
  (r <= v -> v' == v - r) /\
  (v <= - r -> v' == v + r) /\
  (- r <= v -> v <= r -> v' == 0).
Proof.
  intros Hr v'. subst v'.
  destruct (Qlt_le_dec 0 v) as [Hv|Hv].
  - rewrite (moveTowardsCenter_pos _ _ _ _ Hv). conjs; intros; minmax.
  - rewrite (moveTowardsCenter_nonpos _ _ _ _ Hv). conjs; intros; minmax.
Qed.

Lemma moveTowardsZero_step (v r : Q) :
  0 <= r ->
  let v' := moveTowardsZero v r in
  0 <= v' /\
  (0 <= v -> v' <= v) /\
  (r <= v -> v' == v - r) /\
  (v <= r -> v' == 0).
Proof. intros Hr v'. subst v'. unfold moveTowardsZero. conjs; intros; minmax. Qed.

(** *** Construction *)

(** C9. Immediately after construction, before any update or input,
    roll = pitch = yaw = 0, throttle = 0.5 and the four motor thrusts are
    0.6125; construction returns normally and [getControlInputs] of the new
    object returns exactly these values. *)
Theorem fresh_control_inputs (pad : GamepadHandler) :
  exists c,
    constructor pad = Returns c /\
    channels c = mkChannels 0 0 0 0.5 /\
    motorThrusts c = mkMotorThrusts 0.6125 0.6125 0.6125 0.6125 /\
    getControlInputs c =
      mkControlInputs 0 0 0 0.5 (mkMotorThrusts 0.6125 0.6125 0.6125 0.6125).
Proof.
  exists (state_of (constructor pad)).
  conjs; reflexivity.
Qed.

(** *** Gamepad mode *)

Lemma updateActiveScripts_none (dt now : Q) (c : DroneControls) :
  activeScripts c = [] ->
  updateActiveScripts dt now c = set_activeScripts [] c.
Proof. intros H. unfold updateActiveScripts. now rewrite H. Qed.

(** C8. With the gamepad connected, an update writes the clamped axes into
    roll, pitch and yaw, and the clamped (t + 1) / 2 of the fourth axis into
    throttle, whatever the axes read: roll, pitch and yaw end in [-1, 1] and
    throttle in [0, 1], an axis beyond a bound is written as that bound, and
    axes that are normalized are written as they are.  The result does not
    depend on the previous channel values (no rate limiting) and the motor
    thrusts are untouched. *)
Theorem gamepad_writes_axes (dt now : Q) (pad : GamepadHandler) (c : DroneControls) :
  connected pad = true ->
  let c1 := updateControlChannels dt (set_gamepadHandler pad c) in
  channels c1 =
    mkChannels (clampValue (axis0 pad) (-1) 1) (clampValue (axis1 pad) (-1) 1)
               (clampValue (axis2 pad) (-1) 1) (clampValue ((axis3 pad + 1) / 2) 0 1) /\
  motorThrusts c1 = motorThrusts c /\
  update dt pad now c = updateActiveScripts dt now c1 /\
  (activeScripts c = [] -> channels (update dt pad now c) = channels c1) /\
  (-1 <= axis0 pad <= 1 -> roll (channels c1) == axis0 pad) /\
  (-1 <= axis1 pad <= 1 -> pitch (channels c1) == axis1 pad) /\
  (-1 <= axis2 pad <= 1 -> yaw (channels c1) == axis2 pad) /\
  (-1 <= axis3 pad <= 1 -> throttle (channels c1) == (axis3 pad + 1) / 2) /\
  (-1 <= roll (channels c1) <= 1) /\
  (-1 <= pitch (channels c1) <= 1) /\
  (-1 <= yaw (channels c1) <= 1) /\
  (0 <= throttle (channels c1) <= 1) /\
  (axis0 pad <= -1 -> roll (channels c1) == -1) /\
  (1 <= axis0 pad -> roll (channels c1) == 1) /\
  (axis1 pad <= -1 -> pitch (channels c1) == -1) /\
  (1 <= axis1 pad -> pitch (channels c1) == 1) /\
  (axis2 pad <= -1 -> yaw (channels c1) == -1) /\
  (1 <= axis2 pad -> yaw (channels c1) == 1) /\
  (axis3 pad <= -1 -> throttle (channels c1) == 0) /\
  (1 <= axis3 pad -> throttle (channels c1) == 1).
Proof.
  intros Hc c1. subst c1.
  unfold update, updateControlChannels. cbn [gamepadHandler set_gamepadHandler].
  rewrite Hc. cbn [channels motorThrusts set_channels roll pitch yaw throttle].
  pose proof (Qhalf (axis3 pad + 1)) as Hh.
  set (h := (axis3 pad + 1) / 2) in *.
  repeat match goal with
  | |- _ /\ _ => split
  end; try reflexivity.
  - intros Ha. rewrite updateActiveScripts_none by exact Ha. reflexivity.
  - intros [? ?]. now apply clampValue_id.
  - intros [? ?]. now apply clampValue_id.
  - intros [? ?]. now apply clampValue_id.
  - intros [? ?]. apply clampValue_id; lra.
  - apply clampValue_bounds. lra.
  - apply clampValue_bounds. lra.
  - apply clampValue_bounds. lra.
  - apply clampValue_bounds. lra.
  - apply clampValue_bounds. lra.
  - apply clampValue_bounds. lra.
  - apply clampValue_bounds. lra.
  - apply clampValue_bounds. lra.
  - intros ?. unfold clampValue. minmax.
  - intros ?. unfold clampValue. minmax.
  - intros ?. unfold clampValue. minmax.
  - intros ?. unfold clampValue. minmax.
  - intros ?. unfold clampValue. minmax.
  - intros ?. unfold clampValue. minmax.
  - intros ?. unfold clampValue. minmax.
  - intros ?. unfold clampValue. minmax.
Qed.

(** Two normalized axes, one beyond the upper bound and a throttle axis
    beyond the lower one. *)
Example gamepad_writes_axes_witness :
  let pad := mkGamepadHandler true 0.25 (-0.5) 3 (-2) in
  let c1 := updateControlChannels 16
              (set_gamepadHandler pad
                 (state_of (constructor (mkGamepadHandler false 0 0 0 0)))) in
  connected pad = true /\
  channels c1 =
    mkChannels (clampValue 0.25 (-1) 1) (clampValue (-0.5) (-1) 1)
               (clampValue 3 (-1) 1) (clampValue ((-2 + 1) / 2) 0 1) /\
  roll (channels c1) == 0.25 /\ pitch (channels c1) == -0.5 /\
  yaw (channels c1) == 1 /\ throttle (channels c1) == 0.
Proof.
  intros pad c1.
  pose proof (gamepad_writes_axes 16 0 pad
                (state_of (constructor (mkGamepadHandler false 0 0 0 0))) eq_refl)
    as (H1&_&_&_&Hr&Hp&_&_&_&_&_&_&_&_&_&_&_&Hy&Ht&_).
  split; [reflexivity|]. split; [exact H1|].
  split; [apply Hr; split; discriminate|].
  split; [apply Hp; split; discriminate|].
  split; [apply Hy; discriminate | apply Ht; discriminate].
Defined.

(** *** What running scripts leaves alone *)

Lemma sameTables_refl (c : DroneControls) : sameTables c c.
Proof. now repeat split. Qed.

Lemma sameTables_trans (c1 c2 c3 : DroneControls) :
  sameTables c1 c2 -> sameTables c2 c3 -> sameTables c1 c3.
Proof.
  unfold sameTables. intros (?&?&?) (?&?&?).
  conjs; congruence.
Qed.

Lemma execute_sameTables (e : Q) (sid : string) (i : nat) (a : ScriptAction)
    (c : DroneControls) :
  sameTables c (execute e sid i a c).
Proof.
  unfold execute. destruct (action a _); now repeat split.
Qed.

Lemma runDue_sameTables (e : Q) (sid : string) (pending : list ScriptAction) :
  forall (i : nat) (c : DroneControls),
    sameTables c (snd (runDue e sid pending i c)).
Proof.
  induction pending as [|a rest IH]; intros i c; cbn [runDue].
  - apply sameTables_refl.
  - destruct (Qgeb e (time a)).
    + eapply sameTables_trans; [apply execute_sameTables | apply IH].
    + apply sameTables_refl.
Qed.

Lemma stepInstance_sameTables (now : Q) (inst : ScriptInstance) (c : DroneControls) :
  sameTables c (snd (stepInstance now inst c)).
Proof.
  unfold stepInstance.
  pose proof (runDue_sameTables (now - startTime inst) (id inst)
                (drop (nextActionIndex inst) (actions inst)) (nextActionIndex inst) c) as H.
  destruct (runDue _ _ _ _ _) as [i c']. exact H.
Qed.

Lemma filterScripts_sameTables (now : Q) (l : list ScriptInstance) :
  forall c : DroneControls, sameTables c (snd (filterScripts now l c)).
Proof.
  induction l as [|inst rest IH]; intros c; cbn [filterScripts].
  - apply sameTables_refl.
  - pose proof (stepInstance_sameTables now inst c) as H1.
    destruct (stepInstance now inst c) as [inst' c1].
    pose proof (IH c1) as H2.
    destruct (filterScripts now rest c1) as [kept c2].
    cbn [snd] in *. eapply sameTables_trans; eassumption.
Qed.

(** An update leaves the script table as it is. *)
Lemma update_tables (dt now : Q) (pad : GamepadHandler) (c : DroneControls) :
  let c' := update dt pad now c in
  gamepadHandler c' = pad /\ scripts c' = scripts c.
Proof.
  intros c'. subst c'. unfold update, updateActiveScripts.
  set (c2 := updateControlChannels dt (set_gamepadHandler pad c)).
  pose proof (filterScripts_sameTables now (activeScripts c2) c2) as H.
  destruct (filterScripts now (activeScripts c2) c2) as [kept c3].
  destruct H as (H1&H2&_). cbn [snd] in *.
  assert (Hc2 : gamepadHandler c2 = pad /\ scripts c2 = scripts c).
  { subst c2. unfold updateControlChannels. cbn [gamepadHandler set_gamepadHandler].
    destruct (connected pad); now repeat split. }
  destruct Hc2 as (?&?).
  cbn. conjs; congruence.
Qed.

(** *** Ranges *)

Lemma defaultRate_pos : 0 <= defaultRate.
Proof. unfold defaultRate. lra. Qed.


Lemma clamp_or_keep (b : bool) (v w lo hi : Q) :
  lo <= hi -> lo <= v /\ v <= hi ->
  lo <= (if b then clampValue w lo hi else v) /\
  (if b then clampValue w lo hi else v) <= hi.
Proof. intros H Hv. destruct b; [now apply clampValue_bounds | exact Hv]. Qed.

Lemma center_or_keep (b : bool) (v lo hi : Q) :
  lo <= 0 -> 0 <= hi -> lo <= v /\ v <= hi ->
  lo <= (if b then moveTowardsCenter v (-1) 1 defaultRate else v) /\
  (if b then moveTowardsCenter v (-1) 1 defaultRate else v) <= hi.
Proof.
  intros Hlo Hhi Hv. destruct b; [|exact Hv].
  destruct (moveTowardsCenter_step v (-1) 1 defaultRate defaultRate_pos) as (Hp&Hm&_).
  destruct (Qlt_le_dec v 0).
  - destruct Hm; lra.
  - destruct Hp; lra.
Qed.

Lemma zero_or_keep (b : bool) (v hi : Q) :
  0 <= v /\ v <= hi ->
  0 <= (if b then moveTowardsZero v defaultRate else v) /\
  (if b then moveTowardsZero v defaultRate else v) <= hi.
Proof.
  intros Hv. destruct b; [|exact Hv].
  destruct (moveTowardsZero_step v defaultRate defaultRate_pos) as (H0&Hle&_).
  specialize (Hle ltac:(lra)). lra.
Qed.

Lemma updateKeyboardControls_inRange (c : DroneControls) :
  inRange c -> inRange (updateKeyboardControls c).
Proof.
  intros [(Hr&Hp&Hy&Ht) _].
  unfold inRange, updateKeyboardControls, centerUnusedControls, keyboardChannels,
    keyboardMotors, motorStep.
  cbn [channels motorThrusts set_channels set_motorThrusts roll pitch yaw throttle
       motor1 motor2 motor3 motor4].
  split.
  - unfold channelsInRange. cbn [roll pitch yaw throttle].
    split; [|split; [|split]];
      first [ apply center_or_keep; [lra|lra|] | apply zero_or_keep ];
      repeat (apply clamp_or_keep; [lra|]); assumption.
  - unfold motorsInRange. cbn [motor1 motor2 motor3 motor4].
    split; [|split; [|split]];
      match goal with |- context [if ?b then _ else _] => destruct b end;
      apply clampValue_bounds; lra.
Qed.

Lemma updateControlChannels_inRange (dt : Q) (c : DroneControls) :
  inRange c -> inRange (updateControlChannels dt c).
Proof.
  intros H. unfold updateControlChannels.
  destruct (connected (gamepadHandler c)).
  - destruct H as [_ Hm]. split; [|exact Hm].
    unfold channelsInRange. cbn [channels set_channels roll pitch yaw throttle].
    split; [|split; [|split]]; apply clampValue_bounds; lra.
  - now apply updateKeyboardControls_inRange.
Qed.

Lemma execute_inRange (e : Q) (sid : string) (i : nat) (a : ScriptAction)
    (c : DroneControls) :
  rangeSafe (action a) -> inRange c -> inRange (execute e sid i a c).
Proof.
  intros Hs [Hc Hm]. unfold execute. specialize (Hs (fieldsOf c) Hc Hm).
  destruct (action a (fieldsOf c)); exact Hs.
Qed.

Lemma runDue_inRange (e : Q) (sid : string) (pending : list ScriptAction) :
  forall (i : nat) (c : DroneControls),
    scriptSafe pending -> inRange c -> inRange (snd (runDue e sid pending i c)).
Proof.
  induction pending as [|a rest IH]; intros i c Hs Hc; cbn [runDue].
  - exact Hc.
  - apply Forall_cons in Hs. destruct Hs as [Ha Hrest].
    destruct (Qgeb e (time a)); [|exact Hc].
    apply IH; [exact Hrest | now apply execute_inRange].
Qed.

Lemma scriptSafe_drop (n : nat) (acts : list ScriptAction) :
  scriptSafe acts -> scriptSafe (drop n acts).
Proof. unfold scriptSafe. apply Forall_drop. Qed.

Lemma stepInstance_inRange (now : Q) (inst : ScriptInstance) (c : DroneControls) :
  scriptSafe (actions inst) -> inRange c ->
  inRange (snd (stepInstance now inst c)) /\
  actions (fst (stepInstance now inst c)) = actions inst.
Proof.
  intros Hs Hc. unfold stepInstance.
  pose proof (runDue_inRange (now - startTime inst) (id inst)
                (drop (nextActionIndex inst) (actions inst)) (nextActionIndex inst) c
                (scriptSafe_drop _ _ Hs) Hc) as H.
  destruct (runDue _ _ _ _ _) as [i c']. now split.
Qed.

Lemma filterScripts_inRange (now : Q) (l : list ScriptInstance) :
  forall c : DroneControls,
    Forall (fun inst => scriptSafe (actions inst)) l -> inRange c ->
    inRange (snd (filterScripts now l c)) /\
    Forall (fun inst => scriptSafe (actions inst)) (fst (filterScripts now l c)).
Proof.
  induction l as [|inst rest IH]; intros c Hl Hc; cbn [filterScripts].
  - now split.
  - apply Forall_cons in Hl. destruct Hl as [Hi Hrest].
    destruct (stepInstance_inRange now inst c Hi Hc) as [H1 H2].
    destruct (stepInstance now inst c) as [inst' c1]. cbn [fst snd] in *.
    destruct (IH c1 Hrest H1) as [H3 H4].
    destruct (filterScripts now rest c1) as [kept c2]. cbn [fst snd] in *.
    split; [exact H3|].
    destruct (remaining inst'); [|exact H4].
    apply Forall_cons. split; [now rewrite H2 | exact H4].
Qed.

Lemma validate_safe (items : list jsval) :
  forall acts, Forall entrySafe items -> validate items = Valid acts -> scriptSafe acts.
Proof.
  induction items as [|v rest IH]; intros acts Hs Hv; cbn [validate] in Hv.
  - injection Hv as <-. constructor.
  - apply Forall_cons in Hs. destruct Hs as [Hv0 Hrest].
    destruct (get_property v "time") as [[| | |t| | | |]|]; try discriminate.
    destruct (get_property v "action") as [[| | | | |f| |]|] eqn:Ef; try discriminate.
    destruct (validate rest) as [acts'| |]; try discriminate.
    injection Hv as <-. apply Forall_cons. split.
    + cbn [action]. now apply Hv0.
    + now apply IH.
Qed.

Lemma registerScript_invariant (sid : string) (v : jsval) (c : DroneControls) :
  eventSafe (RegisterScript sid v) -> inRange c -> wellScripted c ->
  inRange (state_of (registerScript sid v c)) /\
  wellScripted (state_of (registerScript sid v c)).
Proof.
  intros Hs Hr [Hw1 Hw2]. unfold registerScript.
  destruct v as [| | | | | | |items]; try (split; [exact Hr | split; assumption]).
  cbn [eventSafe] in Hs.
  destruct (validate items) as [acts| |] eqn:Ev;
    try (split; [exact Hr | split; assumption]).
  split; [exact Hr|]. split; [|exact Hw2].
  cbn [state_of say scripts set_scripts]. intros sid' acts' Hl.
  destruct (decide (sid = sid')) as [->|Hne].
  - rewrite lookup_insert_eq in Hl. injection Hl as <-.
    now apply (validate_safe items).
  - rewrite lookup_insert_ne in Hl by exact Hne. now apply (Hw1 sid').
Qed.

Lemma executeScript_invariant (sid : string) (now : Q) (c : DroneControls) :
  inRange c -> wellScripted c ->
  inRange (executeScript sid now c) /\ wellScripted (executeScript sid now c).
Proof.
  intros Hr [Hw1 Hw2]. unfold executeScript.
  destruct (scripts c !! sid) as [script|] eqn:El.
  - split; [exact Hr|]. split; [exact Hw1|].
    cbn [say activeScripts set_activeScripts].
    apply Forall_app. split; [exact Hw2|].
    apply Forall_cons. split; [|constructor]. cbn [actions]. now apply (Hw1 sid).
  - split; [exact Hr | split; assumption].
Qed.

Lemma update_invariant (dt now : Q) (pad : GamepadHandler) (c : DroneControls) :
  inRange c -> wellScripted c ->
  inRange (update dt pad now c) /\ wellScripted (update dt pad now c).
Proof.
  intros Hr [Hw1 Hw2].
  destruct (update_tables dt now pad c) as (_&Hscripts).
  cbv zeta in Hscripts.
  assert (Hgoal : inRange (update dt pad now c) /\
            Forall (fun inst => scriptSafe (actions inst))
                   (activeScripts (update dt pad now c))).
  { unfold update, updateActiveScripts.
    set (c2 := updateControlChannels dt (set_gamepadHandler pad c)).
    assert (Hr2 : inRange c2) by (now apply updateControlChannels_inRange).
    assert (Ha2 : activeScripts c2 = activeScripts c).
    { subst c2. unfold updateControlChannels. cbn [gamepadHandler set_gamepadHandler].
      now destruct (connected pad). }
    rewrite Ha2.
    destruct (filterScripts_inRange now (activeScripts c) c2 Hw2 Hr2) as [H1 H2].
    destruct (filterScripts now (activeScripts c) c2) as [kept c3].
    cbn [fst snd] in *. split; assumption. }
  destruct Hgoal as [H1 H2].
  split; [exact H1|]. split; [|exact H2].
  intros sid acts. rewrite Hscripts. apply Hw1.
Qed.

Lemma handle_invariant (e : Event) (c : DroneControls) :
  eventSafe e -> inRange c -> wellScripted c ->
  inRange (handle e c) /\ wellScripted (handle e c).
Proof.
  intros Hs Hr Hw. destruct e as [key now|key|dt pad now|sid v|key sid|sid now];
    cbn [handle].
  - unfold onKeyDown. destruct (scriptBindings c !! key) as [sid|];
      [destruct (truthy_string sid)|];
      try (now apply executeScript_invariant); now split.
  - unfold onKeyUp. destruct (scriptBindings c !! key) as [sid|];
      [destruct (truthy_string sid)|]; now split.
  - now apply update_invariant.
  - now apply registerScript_invariant.
  - unfold bindKeyToScript. destruct (scripts c !! sid); now split.
  - now apply executeScript_invariant.
Qed.

Lemma run_invariant (events : list Event) :
  forall c : DroneControls,
    Forall eventSafe events -> inRange c -> wellScripted c ->
    inRange (run events c) /\ wellScripted (run events c).
Proof.
  induction events as [|e rest IH]; intros c Hs Hr Hw.
  - now split.
  - apply Forall_cons in Hs. destruct Hs as [He Hrest].
    destruct (handle_invariant e c He Hr Hw) as [Hr' Hw'].
    change (run (e :: rest) c) with (run rest (handle e c)).
    now apply IH.
Qed.

Lemma default_actions_rangeSafe :
  rangeSafe hoverThrottle /\ rangeSafe hoverRoll /\ rangeSafe hoverPitch /\
  rangeSafe hoverYaw /\ rangeSafe yawSpinStart /\ rangeSafe yawSpinStop.
Proof.
  unfold rangeSafe, channelsInRange.
  conjs; intros f (Hr&Hp&Hy&Ht) Hm; cbn; conjs; try tauto; try lra.
Qed.

Lemma constructor_as_run (pad : GamepadHandler) :
  state_of (constructor pad) =
    run [RegisterScript "hover" hoverScript; BindKeyToScript "KeyS" "hover";
         RegisterScript "yawSpin" yawSpinScript; BindKeyToScript "KeyY" "yawSpin"]
        (initialFields pad).
Proof. reflexivity. Qed.

Lemma entry_safe (t : Q) (f : Action) : rangeSafe f -> entrySafe (entry t f).
Proof. intros H g Hg. cbn in Hg. now injection Hg as <-. Qed.

Lemma constructor_invariant (pad : GamepadHandler) :
  inRange (state_of (constructor pad)) /\ wellScripted (state_of (constructor pad)).
Proof.
  destruct default_actions_rangeSafe as (Ht&Hr&Hp&Hy&Hy1&Hy2).
  rewrite constructor_as_run. apply run_invariant.
  - repeat (constructor; cbn [eventSafe hoverScript yawSpinScript]);
      apply entry_safe; assumption.
  - unfold inRange, channelsInRange, motorsInRange, initialFields.
    cbn [channels motorThrusts roll pitch yaw throttle motor1 motor2 motor3 motor4].
    conjs; lra.
  - split; [|constructor]. intros sid acts. cbn [scripts initialFields].
    rewrite lookup_empty. discriminate.
Qed.

(** C2 (amended). After any sequence of key events, updates (gamepad or
    keyboard), script registrations, bindings and script runs on a freshly
    constructed object, roll, pitch and yaw are in [-1,1], throttle is in
    [0,1] and the four motor thrusts are in [0,1], provided every registered
    script action itself keeps in-range values in range: what a script
    action writes is not clamped. *)
Theorem values_stay_in_range (pad : GamepadHandler) (events : list Event) :
  Forall eventSafe events ->
  inRange (run events (state_of (constructor pad))).
Proof.
  intros Hs.
  destruct (constructor_invariant pad) as [Hr Hw].
  now apply (run_invariant events _ Hs Hr Hw).
Qed.

Example values_stay_in_range_witness :
  inRange (run [KeyDown "KeyW" 0; Update 16 (mkGamepadHandler false 0 0 0 0) 16;
                KeyDown "KeyS" 20; Update 16 (mkGamepadHandler true 1 1 1 1) 32;
                KeyUp "KeyW"]
               (state_of (constructor (mkGamepadHandler false 0 0 0 0)))).
Proof.
  apply values_stay_in_range.
  repeat constructor.
Defined.

(** C2, as stated, fails for script-triggered mutations: a script that
    writes 5 into yaw leaves yaw at 5 after the update that runs it. *)
Lemma script_escapes_range_counterexample :
  let c := run [RegisterScript "spin" (JArray [entry 0 (set_yaw 5)]);
                BindKeyToScript "KeyT" "spin";
                KeyDown "KeyT" 0;
                Update 16 (mkGamepadHandler false 0 0 0 0) 16]
               (state_of (constructor (mkGamepadHandler false 0 0 0 0))) in
  yaw (channels c) = 5 /\ ~ inRange c.
Proof.
  split; [reflexivity|].
  intros [(_&_&[_ H]&_) _]. vm_compute in H. apply H. reflexivity.
Qed.

(** *** Script timelines *)

Lemma runDue_spec (e : Q) (sid : string) (pending : list ScriptAction) :
  forall (i : nat) (c : DroneControls),
    runDue e sid pending i c =
      ((i + dueCount e pending)%nat,
       executeAll e sid i (take (dueCount e pending) pending) c).
Proof.
  induction pending as [|a rest IH]; intros i c; cbn [runDue dueCount].
  - cbn. now rewrite Nat.add_0_r.
  - destruct (Qgeb e (time a)).
    + rewrite IH. cbn [take executeAll]. f_equal. lia.
    + cbn. now rewrite Nat.add_0_r.
Qed.

Lemma dueCount_le (e : Q) (pending : list ScriptAction) :
  (dueCount e pending <= length pending)%nat.
Proof.
  induction pending as [|a rest IH]; cbn [dueCount length]; [lia|].
  destruct (Qgeb e (time a)); lia.
Qed.

(** The counted actions are due, and the one after them is not. *)
Lemma dueCount_due (e : Q) (pending : list ScriptAction) :
  forall (j : nat) (a : ScriptAction),
    (j < dueCount e pending)%nat -> pending !! j = Some a -> time a <= e.
Proof.
  induction pending as [|b rest IH]; intros j a Hj Hl; cbn [dueCount] in Hj; [lia|].
  destruct (Qgeb e (time b)) eqn:Eb; [|lia].
  destruct j as [|j]; cbn in Hl.
  - injection Hl as <-. now apply Qgeb_true.
  - apply (IH j); [lia | exact Hl].
Qed.

Lemma dueCount_blocked (e : Q) (pending : list ScriptAction) (a : ScriptAction) :
  pending !! dueCount e pending = Some a -> e < time a.
Proof.
  induction pending as [|b rest IH]; cbn [dueCount]; [discriminate|].
  destruct (Qgeb e (time b)) eqn:Eb; cbn.
  - exact IH.
  - intros [= <-]. now apply Qgeb_false.
Qed.

Lemma dueCount_all (e : Q) (pending : list ScriptAction) :
  Forall (fun a => time a <= e) pending -> dueCount e pending = length pending.
Proof.
  induction 1 as [|a rest Ha _ IH]; cbn [dueCount length]; [reflexivity|].
  apply Qgeb_true in Ha. rewrite Ha. now rewrite IH.
Qed.

(** With ascending offsets no due action hides behind one that is not. *)
Lemma dueCount_ascending (e : Q) (pending : list ScriptAction) :
  ascending pending ->
  forall (j : nat) (a : ScriptAction),
    pending !! j = Some a -> time a <= e -> (j < dueCount e pending)%nat.
Proof.
  induction pending as [|b rest IH]; intros Hs j a Hl Ha; [discriminate|].
  destruct Hs as [Hb Hrest]. cbn [dueCount].
  assert (Hdue : Qgeb e (time b) = true).
  { apply Qgeb_true. destruct j as [|j]; cbn in Hl.
    - now injection Hl as <-.
    - rewrite Forall_forall in Hb. apply list_elem_of_lookup_2 in Hl.
      specialize (Hb a Hl). lra. }
  rewrite Hdue. destruct j as [|j]; [lia|]. cbn in Hl.
  specialize (IH Hrest j a Hl Ha). lia.
Qed.

Lemma ascending_drop (n : nat) (acts : list ScriptAction) :
  ascending acts -> ascending (drop n acts).
Proof.
  revert acts. induction n as [|n IH]; intros [|a rest] H; cbn [drop]; try exact H.
  apply IH. apply H.
Qed.

(** What the console shows of a run: apart from the lines the actions
    print themselves, one line per executed action, numbered
    consecutively. *)
Lemma omap_actionNumber_output (out : list string) :
  omap actionNumber (map ActionOutput out) = [].
Proof. induction out as [|l out IH]; [reflexivity | exact IH]. Qed.

Lemma execute_console (e : Q) (sid : string) (i : nat) (a : ScriptAction)
    (c : DroneControls) :
  exists msgs, console (execute e sid i a c) = console c ++ msgs /\
               omap actionNumber msgs = [S i].
Proof.
  unfold execute.
  destruct (action a _) as [out f|out f];
    (eexists (map ActionOutput out ++ [_]); split;
     [ cbn [say console afterAction]; now rewrite app_assoc
     | rewrite omap_app, omap_actionNumber_output; cbn; do 2 f_equal; lia ]).
Qed.

Lemma executeAll_console (e : Q) (sid : string) (acts : list ScriptAction) :
  forall (i : nat) (c : DroneControls),
    exists msgs, console (executeAll e sid i acts c) = console c ++ msgs /\
                 omap actionNumber msgs = seq (S i) (length acts).
Proof.
  induction acts as [|a rest IH]; intros i c; cbn [executeAll length seq].
  - exists []. split; [now rewrite app_nil_r | reflexivity].
  - destruct (execute_console e sid i a c) as (m&Hm&Hn).
    destruct (IH (S i) (execute e sid i a c)) as (msgs&Hmsgs&Hns).
    exists (m ++ msgs). split.
    + rewrite Hmsgs, Hm, <- app_assoc. reflexivity.
    + rewrite omap_app, Hn, Hns. reflexivity.
Qed.

Lemma stepInstance_spec (now : Q) (inst : ScriptInstance) (c : DroneControls) :
  let e := now - startTime inst in
  let pending := drop (nextActionIndex inst) (actions inst) in
  let k := dueCount e pending in
  stepInstance now inst c =
    (mkScriptInstance (id inst) (actions inst) (startTime inst)
                      (nextActionIndex inst + k),
     executeAll e (id inst) (nextActionIndex inst) (take k pending) c).
Proof.
  intros e pending k. unfold stepInstance. fold e. fold pending.
  rewrite runDue_spec. reflexivity.
Qed.

Lemma stepInstance_console (now : Q) (inst : ScriptInstance) (c : DroneControls) :
  let inst' := fst (stepInstance now inst c) in
  let c' := snd (stepInstance now inst c) in
  (nextActionIndex inst <= nextActionIndex inst')%nat /\
  exists msgs, console c' = console c ++ msgs /\
    omap actionNumber msgs =
      seq (S (nextActionIndex inst)) (nextActionIndex inst' - nextActionIndex inst).
Proof.
  rewrite stepInstance_spec. cbn [fst snd nextActionIndex].
  set (e := now - startTime inst).
  set (pending := drop (nextActionIndex inst) (actions inst)).
  split; [lia|].
  destruct (executeAll_console e (id inst) (take (dueCount e pending) pending)
              (nextActionIndex inst) c) as (msgs&H1&H2).
  exists msgs. split; [exact H1|]. rewrite H2. f_equal.
  rewrite length_take. pose proof (dueCount_le e pending). lia.
Qed.

Lemma runInstance_console (times : list Q) :
  forall (inst : ScriptInstance) (c : DroneControls),
    let inst' := fst (runInstance times inst c) in
    let c' := snd (runInstance times inst c) in
    (nextActionIndex inst <= nextActionIndex inst')%nat /\
    exists msgs, console c' = console c ++ msgs /\
      omap actionNumber msgs =
        seq (S (nextActionIndex inst)) (nextActionIndex inst' - nextActionIndex inst).
Proof.
  induction times as [|t later IH]; intros inst c; cbn [runInstance].
  - cbn [fst snd]. split; [lia|]. exists []. rewrite Nat.sub_diag, app_nil_r. now split.
  - destruct (stepInstance_console t inst c) as (Hle&msgs&Hc&Hn).
    destruct (stepInstance t inst c) as [inst1 c1]. cbn [fst snd] in *.
    destruct (IH inst1 c1) as (Hle'&msgs'&Hc'&Hn').
    split; [lia|]. exists (msgs ++ msgs'). split.
    + rewrite Hc', Hc, <- app_assoc. reflexivity.
    + rewrite omap_app, Hn, Hn'.
      set (a := nextActionIndex inst) in *. set (b := nextActionIndex inst1) in *.
      set (d := nextActionIndex (fst (runInstance later inst1 c1))) in *.
      replace (d - a)%nat with ((b - a) + (d - b))%nat by lia.
      rewrite seq_app. do 2 f_equal. lia.
Qed.

Lemma updateControlChannels_activeScripts (dt : Q) (c : DroneControls) :
  activeScripts (updateControlChannels dt c) = activeScripts c.
Proof. unfold updateControlChannels. now destruct (connected (gamepadHandler c)). Qed.

Lemma set_activeScripts_same (c : DroneControls) :
  set_activeScripts (activeScripts c) c = c.
Proof. now destruct c. Qed.

Lemma channelStep_activeScripts (dt : Q) (pad : GamepadHandler) (c : DroneControls) :
  activeScripts (channelStep dt pad c) = activeScripts c.
Proof. unfold channelStep. now rewrite updateControlChannels_activeScripts. Qed.

(** *** An update, instance by instance *)

Lemma dueActions_length (now : Q) (inst : ScriptInstance) :
  length (dueActions now inst) =
    dueCount (now - startTime inst) (drop (nextActionIndex inst) (actions inst)).
Proof.
  unfold dueActions. rewrite length_take.
  pose proof (dueCount_le (now - startTime inst)
                (drop (nextActionIndex inst) (actions inst))).
  lia.
Qed.

Lemma stepInstance_advance (now : Q) (inst : ScriptInstance) (c : DroneControls) :
  stepInstance now inst c =
    (advance now inst,
     executeAll (now - startTime inst) (id inst) (nextActionIndex inst)
       (dueActions now inst) c).
Proof.
  rewrite stepInstance_spec. unfold advance. now rewrite dueActions_length.
Qed.

Lemma filterScripts_spec (now : Q) (l : list ScriptInstance) :
  forall c : DroneControls,
    filterScripts now l c =
      (List.filter (fun i => (nextActionIndex i <? length (actions i))%nat)
         (map (advance now) l),
       executeDue now l c).
Proof.
  induction l as [|inst rest IH]; intros c;
    cbn [filterScripts map List.filter executeDue]; [reflexivity|].
  rewrite stepInstance_advance, IH. unfold remaining. reflexivity.
Qed.

(** An update is the input step, then every active instance executing its
    due actions in list order; the instances kept are those whose cursor
    has not reached the end of their script. *)
Lemma update_spec (dt now : Q) (pad : GamepadHandler) (c : DroneControls) :
  update dt pad now c =
    set_activeScripts
      (List.filter (fun i => (nextActionIndex i <? length (actions i))%nat)
         (map (advance now) (activeScripts c)))
      (executeDue now (activeScripts c) (channelStep dt pad c)).
Proof.
  unfold update, updateActiveScripts. fold (channelStep dt pad c).
  rewrite filterScripts_spec, channelStep_activeScripts. reflexivity.
Qed.

Lemma update_instances (dt now : Q) (pad : GamepadHandler) (c : DroneControls) :
  activeScripts (update dt pad now c) =
    List.filter (fun i => (nextActionIndex i <? length (actions i))%nat)
      (map (advance now) (activeScripts c)).
Proof. now rewrite update_spec. Qed.

Lemma dueActions_finished (now : Q) (inst : ScriptInstance) :
  (length (actions inst) <= nextActionIndex inst)%nat -> dueActions now inst = [].
Proof. intros H. unfold dueActions. now rewrite drop_ge by exact H. Qed.

Lemma advance_nothingDue (now : Q) (inst : ScriptInstance) :
  nothingDue now inst -> advance now inst = inst.
Proof.
  unfold nothingDue, advance. intros ->. destruct inst. cbn. f_equal. lia.
Qed.

Lemma advanceThrough_finished (times : list Q) :
  forall inst : ScriptInstance,
    (length (actions inst) <= nextActionIndex inst)%nat ->
    advanceThrough times inst = inst.
Proof.
  induction times as [|t later IH]; intros inst H; [reflexivity|].
  unfold advanceThrough. cbn [fold_left].
  rewrite advance_nothingDue by (now apply dueActions_finished).
  now apply IH.
Qed.

Lemma advanceThrough_cursor (times : list Q) :
  forall inst : ScriptInstance,
    let inst' := advanceThrough times inst in
    (nextActionIndex inst <= nextActionIndex inst')%nat /\
    id inst' = id inst /\ actions inst' = actions inst /\
    startTime inst' = startTime inst.
Proof.
  induction times as [|t later IH]; intros inst; [now repeat split|].
  destruct (IH (advance t inst)) as (H1&H2&H3&H4).
  cbn [advance nextActionIndex id actions startTime] in *.
  unfold advanceThrough in *. cbn [fold_left]. cbv zeta.
  repeat split; try assumption. lia.
Qed.

Lemma filter_advanceThrough (times : list Q) (l : list ScriptInstance) :
  List.filter (fun i => (nextActionIndex i <? length (actions i))%nat)
    (map (advanceThrough times)
       (List.filter (fun i => (nextActionIndex i <? length (actions i))%nat) l)) =
  List.filter (fun i => (nextActionIndex i <? length (actions i))%nat)
    (map (advanceThrough times) l).
Proof.
  induction l as [|i l IH]; [reflexivity|]. cbn [List.filter map].
  destruct (nextActionIndex i <? length (actions i))%nat eqn:E; cbn [map List.filter].
  - now rewrite IH.
  - pose proof E as E'. apply Nat.ltb_ge in E'.
    rewrite (advanceThrough_finished times i E'), E. exact IH.
Qed.

(** Over a sequence of updates the cursors only move forward, and an
    instance stays until its cursor reaches the end of its script. *)
Lemma run_updates_instances (ticks : list Event) :
  forall (dt now : Q) (pad : GamepadHandler) (c : DroneControls),
    Forall isUpdate ticks ->
    activeScripts (run (Update dt pad now :: ticks) c) =
      List.filter (fun i => (nextActionIndex i <? length (actions i))%nat)
        (map (advanceThrough (now :: updateTimes ticks)) (activeScripts c)).
Proof.
  induction ticks as [|e rest IH]; intros dt now pad c H.
  - cbn [run fold_left handle]. rewrite update_instances. reflexivity.
  - apply Forall_cons in H. destruct H as [He Hrest].
    destruct e as [| |dt' pad' now'| | |]; try contradiction.
    change (run (Update dt pad now :: Update dt' pad' now' :: rest) c)
      with (run (Update dt' pad' now' :: rest) (update dt pad now c)).
    rewrite IH by exact Hrest. rewrite update_instances.
    rewrite filter_advanceThrough, map_map. reflexivity.
Qed.

(** The two-action timeline of the specification, through [onKeyDown] and
    [update]. *)
Lemma two_action_timeline (a0 a1 : Action) (sid key : string) (t0 : Q)
    (c : DroneControls) :
  scripts c !! sid = Some [mkScriptAction 0 a0; mkScriptAction 1000 a1] ->
  scriptBindings c !! key = Some sid -> truthy_string sid = true ->
  activeScripts c = [] ->
  let script := [mkScriptAction 0 a0; mkScriptAction 1000 a1] in
  let c1 := onKeyDown key t0 c in
  activeScripts c1 = [mkScriptInstance sid script t0 0] /\
  forall (dt1 t1 : Q) (pad1 : GamepadHandler),
    0 <= t1 - t0 -> t1 - t0 < 1000 ->
    let c2 := update dt1 pad1 t1 c1 in
    c2 = set_activeScripts [mkScriptInstance sid script t0 1]
           (execute (t1 - t0) sid 0 (mkScriptAction 0 a0) (channelStep dt1 pad1 c1)) /\
    forall (dt2 t2 : Q) (pad2 : GamepadHandler),
      1000 <= t2 - t0 ->
      let c3 := update dt2 pad2 t2 c2 in
      c3 = set_activeScripts []
             (execute (t2 - t0) sid 1 (mkScriptAction 1000 a1) (channelStep dt2 pad2 c2)) /\
      forall (dt3 t3 : Q) (pad3 : GamepadHandler),
        update dt3 pad3 t3 c3 = channelStep dt3 pad3 c3.
Proof.
  intros Hs Hb Ht Ha script c1.
  assert (Hc1 : activeScripts c1 = [mkScriptInstance sid script t0 0]).
  { subst c1. unfold onKeyDown. rewrite Hb, Ht. unfold executeScript. rewrite Hs.
    cbn [say activeScripts set_activeScripts]. now rewrite Ha. }
  split; [exact Hc1|].
  intros dt1 t1 pad1 H0 H1 c2.
  assert (Hc2 : c2 = set_activeScripts [mkScriptInstance sid script t0 1]
           (execute (t1 - t0) sid 0 (mkScriptAction 0 a0) (channelStep dt1 pad1 c1))).
  { subst c2. unfold update, updateActiveScripts. fold (channelStep dt1 pad1 c1).
    unfold channelStep at 1. rewrite updateControlChannels_activeScripts.
    cbn [activeScripts set_gamepadHandler]. rewrite Hc1.
    cbn [filterScripts]. rewrite stepInstance_spec.
    cbn [startTime nextActionIndex actions id]. rewrite drop_0.
    subst script. cbn [dueCount time].
    apply Qgeb_true in H0. rewrite H0.
    apply Qgeb_false in H1. rewrite H1.
    reflexivity. }
  split; [exact Hc2|].
  intros dt2 t2 pad2 H2 c3.
  assert (Hc3 : c3 = set_activeScripts []
             (execute (t2 - t0) sid 1 (mkScriptAction 1000 a1) (channelStep dt2 pad2 c2))).
  { subst c3. unfold update, updateActiveScripts. fold (channelStep dt2 pad2 c2).
    unfold channelStep at 1. rewrite updateControlChannels_activeScripts.
    cbn [activeScripts set_gamepadHandler]. rewrite Hc2 at 1.
    cbn [activeScripts set_activeScripts].
    cbn [filterScripts]. rewrite stepInstance_spec.
    cbn [startTime nextActionIndex actions id].
    subst script. change (drop 1 [mkScriptAction 0 a0; mkScriptAction 1000 a1])
      with [mkScriptAction 1000 a1].
    cbn [dueCount time].
    apply Qgeb_true in H2. rewrite H2.
    reflexivity. }
  split; [exact Hc3|].
  intros dt3 t3 pad3. unfold update. fold (channelStep dt3 pad3 c3).
  rewrite updateActiveScripts_none.
  - rewrite <- set_activeScripts_same. f_equal.
    unfold channelStep. rewrite updateControlChannels_activeScripts.
    cbn [activeScripts set_gamepadHandler]. now rewrite Hc3.
  - unfold channelStep. rewrite updateControlChannels_activeScripts.
    cbn [activeScripts set_gamepadHandler]. now rewrite Hc3.
Qed.

(** C1 (amended). An update runs the input step and then lets every
    active instance, in list order and each on the state left by the
    previous one, execute its due actions: in registration order and once
    each, the actions from its cursor up to the first one whose offset
    exceeds the elapsed time [now - startTime].  The cursor moves past
    exactly these, and the instance stays active while its cursor is short
    of the end of its script.  When the offsets are in ascending order these
    are all the due actions the cursor had not passed.  Over any sequence of
    updates the cursors only move forward and the action numbers reported
    for an instance are consecutive, so no action is executed twice, sorted
    or not.  For the script [(0,a0),(1000,a1)]: after the trigger press, an
    update at an elapsed time in [0,1000) executes only a0, an update at an
    elapsed time of at least 1000 executes only a1 and retires the
    instance, and later updates execute nothing. *)
Theorem due_prefix_runs_in_order :
  (forall (dt now : Q) (pad : GamepadHandler) (c : DroneControls),
     update dt pad now c =
       set_activeScripts
         (List.filter (fun i => (nextActionIndex i <? length (actions i))%nat)
            (map (advance now) (activeScripts c)))
         (executeDue now (activeScripts c) (channelStep dt pad c))) /\
  (forall (now : Q) (inst : ScriptInstance) (rest : list ScriptInstance)
          (c : DroneControls),
     executeDue now [] c = c /\
     executeDue now (inst :: rest) c =
       executeDue now rest
         (executeAll (now - startTime inst) (id inst) (nextActionIndex inst)
            (dueActions now inst) c)) /\
  (forall (e : Q) (sid : string) (idx : nat) (a : ScriptAction)
          (rest : list ScriptAction) (c : DroneControls),
     executeAll e sid idx [] c = c /\
     executeAll e sid idx (a :: rest) c =
       executeAll e sid (S idx) rest (execute e sid idx a c) /\
     (forall out f, action a (fieldsOf c) = Done out f ->
        execute e sid idx a c =
          mkDroneControls (f_channels f) (f_motorThrusts f) (f_keyStates f)
            (f_controlRate f) (gamepadHandler c) (scripts c) (f_scriptBindings f)
            (activeScripts c)
            (console c ++ map ActionOutput out ++ [LogExecuted (idx + 1) sid e]))) /\
  (forall (now : Q) (inst : ScriptInstance) (rest : list ScriptInstance)
          (c : DroneControls),
     filterScripts now (inst :: rest) c =
       (if remaining (fst (stepInstance now inst c))
        then fst (stepInstance now inst c) ::
             fst (filterScripts now rest (snd (stepInstance now inst c)))
        else fst (filterScripts now rest (snd (stepInstance now inst c))),
        snd (filterScripts now rest (snd (stepInstance now inst c))))) /\
  (forall (now : Q) (inst : ScriptInstance) (c : DroneControls),
     let e := now - startTime inst in
     let cursor := nextActionIndex inst in
     let k := dueCount e (drop cursor (actions inst)) in
     stepInstance now inst c =
       (mkScriptInstance (id inst) (actions inst) (startTime inst) (cursor + k),
        executeAll e (id inst) cursor (take k (drop cursor (actions inst))) c) /\
     dueActions now inst = take k (drop cursor (actions inst)) /\
     advance now inst =
       mkScriptInstance (id inst) (actions inst) (startTime inst) (cursor + k) /\
     (forall j a, (j < k)%nat -> actions inst !! (cursor + j)%nat = Some a ->
                  time a <= e) /\
     (forall a, actions inst !! (cursor + k)%nat = Some a -> e < time a) /\
     (ascending (actions inst) -> executesEveryDue now inst c)) /\
  (forall (times : list Q) (inst : ScriptInstance) (c : DroneControls),
     let inst' := fst (runInstance times inst c) in
     let c' := snd (runInstance times inst c) in
     (nextActionIndex inst <= nextActionIndex inst')%nat /\
     exists msgs, console c' = console c ++ msgs /\
       omap actionNumber msgs =
         seq (S (nextActionIndex inst))
             (nextActionIndex inst' - nextActionIndex inst)) /\
  (forall (ticks : list Event) (dt now : Q) (pad : GamepadHandler)
          (c : DroneControls),
     Forall isUpdate ticks ->
     activeScripts (run (Update dt pad now :: ticks) c) =
       List.filter (fun i => (nextActionIndex i <? length (actions i))%nat)
         (map (advanceThrough (now :: updateTimes ticks)) (activeScripts c)) /\
     forall inst, In inst (activeScripts c) ->
       (nextActionIndex inst <=
        nextActionIndex (advanceThrough (now :: updateTimes ticks) inst))%nat) /\
  (forall (a0 a1 : Action) (sid key : string) (t0 : Q) (c : DroneControls),
     scripts c !! sid = Some [mkScriptAction 0 a0; mkScriptAction 1000 a1] ->
     scriptBindings c !! key = Some sid -> truthy_string sid = true ->
     activeScripts c = [] ->
     let script := [mkScriptAction 0 a0; mkScriptAction 1000 a1] in
     let c1 := onKeyDown key t0 c in
     activeScripts c1 = [mkScriptInstance sid script t0 0] /\
     forall (dt1 t1 : Q) (pad1 : GamepadHandler),
       0 <= t1 - t0 -> t1 - t0 < 1000 ->
       let c2 := update dt1 pad1 t1 c1 in
       c2 = set_activeScripts [mkScriptInstance sid script t0 1]
              (execute (t1 - t0) sid 0 (mkScriptAction 0 a0)
                 (channelStep dt1 pad1 c1)) /\
       forall (dt2 t2 : Q) (pad2 : GamepadHandler),
         1000 <= t2 - t0 ->
         let c3 := update dt2 pad2 t2 c2 in
         c3 = set_activeScripts []
                (execute (t2 - t0) sid 1 (mkScriptAction 1000 a1)
                   (channelStep dt2 pad2 c2)) /\
         forall (dt3 t3 : Q) (pad3 : GamepadHandler),
           update dt3 pad3 t3 c3 = channelStep dt3 pad3 c3).
Proof.
  conjs.
  - apply update_spec.
  - intros now inst rest c. now split.
  - intros e sid idx a rest c. conjs; try reflexivity.
    intros out f H. unfold execute. rewrite H.
    unfold say, afterAction.
    cbn [channels motorThrusts keyStates controlRate gamepadHandler
         scripts scriptBindings activeScripts console].
    now rewrite <- app_assoc.
  - intros now inst rest c. cbn [filterScripts].
    destruct (stepInstance now inst c) as [inst' c1]. cbn [fst snd].
    now destruct (filterScripts now rest c1).
  - intros now inst c e cursor k. split; [apply stepInstance_spec|].
    split; [reflexivity|]. split.
    { unfold advance. now rewrite dueActions_length. }
    split; [|split].
    + intros j a Hj Hl. rewrite <- lookup_drop in Hl.
      exact (dueCount_due e _ j a Hj Hl).
    + intros a Hl. rewrite <- lookup_drop in Hl.
      exact (dueCount_blocked e _ a Hl).
    + intros Hs j a Hj Hl Ha. rewrite stepInstance_spec.
      cbn [fst nextActionIndex]. fold e. fold cursor.
      replace j with (cursor + (j - cursor))%nat in Hl by lia.
      rewrite <- lookup_drop in Hl.
      pose proof (dueCount_ascending e _ (ascending_drop cursor _ Hs) _ _ Hl Ha).
      lia.
  - apply runInstance_console.
  - intros ticks dt now pad c H. split.
    + now apply run_updates_instances.
    + intros inst _. apply (advanceThrough_cursor (now :: updateTimes ticks) inst).
  - apply two_action_timeline.
Qed.

(** The hover script started at 0 and the yaw spin started at 5, after
    updates at 16, 32 and 1200: the hover script is finished and gone, the
    yaw spin waits with its cursor on its second action. *)
Example due_prefix_runs_in_order_witness :
  let c := onKeyDown "KeyY" 5 (onKeyDown "KeyS" 0 fresh) in
  let ticks := [Update 16 (mkGamepadHandler false 0 0 0 0) 16;
                Update 16 (mkGamepadHandler false 0 0 0 0) 32;
                Update 16 (mkGamepadHandler false 0 0 0 0) 1200] in
  activeScripts (run ticks c) =
    List.filter (fun i => (nextActionIndex i <? length (actions i))%nat)
      (map (advanceThrough [16; 32; 1200]) (activeScripts c)) /\
  activeScripts c =
    [mkScriptInstance "hover" hoverActions 0 0;
     mkScriptInstance "yawSpin" yawSpinActions 5 0] /\
  activeScripts (run ticks c) = [mkScriptInstance "yawSpin" yawSpinActions 5 1].
Proof.
  intros c ticks. split; [|split; vm_compute; reflexivity].
  refine (proj1 (proj1 (proj2 (proj2 (proj2 (proj2 (proj2 (proj2
            due_prefix_runs_in_order))))))
            [Update 16 (mkGamepadHandler false 0 0 0 0) 32;
             Update 16 (mkGamepadHandler false 0 0 0 0) 1200]
            16 16 (mkGamepadHandler false 0 0 0 0) c _)).
  repeat constructor.
Defined.

(** C1, as stated, fails for unsorted offsets: 500 ms after the start the
    second action (offset 0) is due and the cursor has not passed it, yet
    the update executes nothing, because the first action (offset 1000)
    is not due. *)
Lemma blocked_due_action_counterexample :
  let late :=
    mkScriptInstance "late"
      [mkScriptAction 1000 (set_roll 1); mkScriptAction 0 (set_yaw 1)] 0 0 in
  let c' := update 16 (mkGamepadHandler false 0 0 0 0) 500 lateFirst in
  activeScripts lateFirst = [late] /\
  ~ executesEveryDue 500 late (channelStep 16 (mkGamepadHandler false 0 0 0 0) lateFirst) /\
  activeScripts c' = [late] /\ console c' = console lateFirst /\
  yaw (channels c') = 0.
Proof.
  intros late c'. conjs; try (vm_compute; reflexivity).
  intros H.
  specialize (H 1%nat (mkScriptAction 0 (set_yaw 1))).
  vm_compute in H. specialize (H ltac:(lia) eq_refl ltac:(discriminate)). lia.
Qed.








(** *** Keyboard mode without input *)


































(** *** Registration and binding *)

(** Whatever [registerScript] is given, it either registers the validated
    actions, or reports and returns, or raises; in the last two cases the
    object is unchanged but for the console line. *)
Lemma registerScript_outcomes (sid : string) (v : jsval) (c : DroneControls) :
  (exists items acts,
     v = JArray items /\ validate items = Valid acts /\
     registerScript sid v c =
       Returns (say (LogRegistered sid) (set_scripts (<[sid := acts]> (scripts c)) c))) \/
  (exists m, is_error m = true /\ registerScript sid v c = Returns (say m c)) \/
  registerScript sid v c = Raises TypeError c.
Proof.
  unfold registerScript.
  destruct v as [| | | | | | |items];
    try (right; left; exists ErrActionsNotArray; now split).
  destruct (validate items) as [acts| |] eqn:Ev.
  - left. now exists items, acts.
  - right. left. exists ErrMalformedAction. now split.
  - right. now right.
Qed.

(** A rejected registration leaves the script table as it was. *)
Lemma registerScript_rejected_table (sid : string) (v : jsval) (c : DroneControls) :
  (forall items acts, v = JArray items -> validate items <> Valid acts) ->
  scripts (state_of (registerScript sid v c)) = scripts c /\
  scriptBindings (state_of (registerScript sid v c)) = scriptBindings c.
Proof.
  intros H.
  destruct (registerScript_outcomes sid v c)
    as [(items&acts&Hv&Hval&_)|[(m&_&Hr)|Hr]].
  - now destruct (H items acts Hv).
  - rewrite Hr. now split.
  - rewrite Hr. now split.
Qed.

(** Binding a key to an id under which the script table has nothing is
    reported and changes nothing else. *)
Lemma bindKeyToScript_unknown (keyCode sid : string) (c : DroneControls) :
  scripts c !! sid = None ->
  bindKeyToScript keyCode sid c = say (ErrUnknownScript keyCode sid) c.
Proof. intros H. unfold bindKeyToScript. now rewrite H. Qed.

(** C6, at the failing input: an action list with a [null] (or
    [undefined]) entry, alone or after well-formed entries, makes
    [registerScript] raise a [TypeError] instead of reporting; the object,
    console included, is as before the call. *)
Theorem registerScript_null_entry_raises (sid : string) (c : DroneControls) :
  registerScript sid (JArray [JNull]) c = Raises TypeError c /\
  registerScript sid (JArray [JUndefined]) c = Raises TypeError c /\
  (forall (t : Q) (f : Action),
     registerScript sid (JArray [entry t f; JNull]) c = Raises TypeError c).
Proof. now repeat split. Qed.

(** A key bound to a script with a non-empty id never reaches the key
    states through the handlers. *)
Lemma bound_key_skips_keyStates (key sid : string) (now : Q) (c : DroneControls) :
  scriptBindings c !! key = Some sid -> truthy_string sid = true ->
  keyStates (onKeyDown key now c) = keyStates c /\
  keyStates (onKeyUp key c) = keyStates c /\
  channels (onKeyDown key now c) = channels c /\
  motorThrusts (onKeyDown key now c) = motorThrusts c.
Proof.
  intros Hb Ht. unfold onKeyDown, onKeyUp, executeScript. rewrite Hb, Ht.
  destruct (scripts c !! sid); now repeat split.
Qed.

(** C10, at the failing input: W is bound to the script registered under
    the empty id; pressing W starts no instance, writes the pressed state of
    W into the key states, and the next keyboard update raises the throttle
    by the control rate; releasing W writes the key state as well. *)
Theorem empty_id_binding_reaches_keyStates :
  let pad := mkGamepadHandler false 0 0 0 0 in
  let c1 := onKeyDown "KeyW" 0 emptyIdBound in
  scripts emptyIdBound !! EmptyString = Some [mkScriptAction 0 (set_roll 0)] /\
  scriptBindings emptyIdBound !! "KeyW" = Some EmptyString /\
  keyStates emptyIdBound !! "KeyW" = None /\
  keyStates c1 !! "KeyW" = Some true /\
  activeScripts c1 = [] /\
  throttle (channels emptyIdBound) == 0.5 /\
  throttle (channels (update 16 pad 16 c1)) == 0.9 /\
  keyStates (onKeyUp "KeyW" c1) !! "KeyW" = Some false.
Proof. intros pad c1. conjs; vm_compute; reflexivity. Qed.

(** ** Further properties of the control channel engine *)

(** X1. [clampValue] returns [value] inside [min, max], the nearer bound
    outside, and [min] when the bounds are crossed; clamping twice is
    clamping once. *)
Theorem clampValue_spec (v lo hi : Q) :
  (lo <= hi ->
   (lo <= clampValue v lo hi /\ clampValue v lo hi <= hi) /\
   (lo <= v -> v <= hi -> clampValue v lo hi == v) /\
   (v <= lo -> clampValue v lo hi == lo) /\
   (hi <= v -> clampValue v lo hi == hi)) /\
  (hi < lo -> clampValue v lo hi == lo) /\
  clampValue (clampValue v lo hi) lo hi == clampValue v lo hi.
Proof.
  unfold clampValue. conjs; intros; minmax.
Qed.

Example clampValue_spec_witness :
  clampValue 1.3 0 1 == 1 /\ clampValue (-0.2) 0 1 == 0 /\ clampValue 0.4 1 0 == 1.
Proof.
  destruct (clampValue_spec 1.3 0 1) as (H&_&_).
  destruct (clampValue_spec (-0.2) 0 1) as (H'&_&_).
  destruct (clampValue_spec 0.4 1 0) as (_&H''&_).
  split; [|split].
  - apply H; discriminate.
  - apply H'; discriminate.
  - apply H''. reflexivity.
Defined.







(** X4. For a key that is not bound to a script, key-down makes the
    key read as pressed and key-up as released; the handlers change the
    reading of no other key and touch neither channels, motor thrusts,
    script tables nor running instances. *)
Theorem key_state_round_trip (k : string) (now : Q) (c : DroneControls) :
  scriptBindings c !! k = None ->
  let down := onKeyDown k now c in
  let up := onKeyUp k down in
  pressed down k = true /\ pressed up k = false /\
  (forall k', k' <> k ->
     pressed down k' = pressed c k' /\ pressed up k' = pressed c k') /\
  set_keyStates (keyStates c) down = c /\ set_keyStates (keyStates c) up = c.
Proof.
  intros Hb down up. subst up down.
  unfold onKeyUp, onKeyDown. rewrite Hb.
  cbn [scriptBindings set_keyStates]. rewrite Hb.
  unfold pressed. cbn [keyStates set_keyStates].
  conjs.
  - now rewrite lookup_insert_eq.
  - now rewrite lookup_insert_eq.
  - intros k' Hk. now rewrite !lookup_insert_ne by congruence.
  - now destruct c.
  - now destruct c.
Qed.

Example key_state_round_trip_witness :
  pressed (onKeyDown "KeyW" 0 fresh) "KeyW" = true /\
  pressed (onKeyUp "KeyW" (onKeyDown "KeyW" 0 fresh)) "KeyW" = false.
Proof.
  destruct (key_state_round_trip "KeyW" 0 fresh eq_refl) as (H1&H2&_).
  split; [exact H1 | exact H2].
Defined.

(** *** Registration, binding and starting *)

Lemma validate_Forall2 (items : list jsval) :
  forall acts, validate items = Valid acts <-> Forall2 wellFormedEntry items acts.
Proof.
  induction items as [|v rest IH]; intros acts; cbn [validate].
  - split.
    + intros [= <-]. constructor.
    + intros H. inversion H. reflexivity.
  - split.
    + intros Hv.
      destruct (get_property v "time") as [[| | |t| | | |]|] eqn:Et; try discriminate.
      destruct (get_property v "action") as [[| | | | |f| |]|] eqn:Ef; try discriminate.
      destruct (validate rest) as [acts'| |] eqn:Er; try discriminate.
      injection Hv as <-. constructor.
      * split; [exact Et | exact Ef].
      * now apply IH.
    + intros H. inversion H as [|v' a rest' acts' [Ht Hf] Hrest]; subst.
      rewrite Ht, Hf. apply IH in Hrest. rewrite Hrest. now destruct a.
Qed.

(** X5. [registerScript] stores a script exactly when the argument is an
    array each of whose entries has a numeric [time] and a function
    [action]; the stored list has one action per entry, in the order given,
    with that entry's time and action.  It replaces an earlier registration
    under the same id and leaves the other ids, the bindings, the running
    instances, the channels and the motor thrusts as they were. *)
Theorem registerScript_round_trip (sid : string) (items : list jsval)
    (acts : list ScriptAction) (c : DroneControls) :
  (validate items = Valid acts <-> Forall2 wellFormedEntry items acts) /\
  (Forall2 wellFormedEntry items acts ->
   exists c', registerScript sid (JArray items) c = Returns c' /\
     scripts c' !! sid = Some acts /\
     (forall sid', sid' <> sid -> scripts c' !! sid' = scripts c !! sid') /\
     scriptBindings c' = scriptBindings c /\ activeScripts c' = activeScripts c /\
     channels c' = channels c /\ motorThrusts c' = motorThrusts c /\
     keyStates c' = keyStates c /\
     console c' = console c ++ [LogRegistered sid]).
Proof.
  split; [apply validate_Forall2|].
  intros H. apply validate_Forall2 in H.
  unfold registerScript. rewrite H. eexists. split; [reflexivity|].
  cbn [say scripts set_scripts scriptBindings activeScripts channels motorThrusts
       keyStates console].
  conjs; try reflexivity.
  - now rewrite lookup_insert_eq.
  - intros sid' Hne. now rewrite lookup_insert_ne by congruence.
Qed.

Example registerScript_round_trip_witness :
  exists c',
    registerScript "hover" (JArray [entry 0 (set_yaw 0.2); entry 5000 (set_yaw 0)])
      fresh = Returns c' /\
    scripts c' !! "hover" =
      Some [mkScriptAction 0 (set_yaw 0.2); mkScriptAction 5000 (set_yaw 0)].
Proof.
  destruct (proj2 (registerScript_round_trip "hover"
              [entry 0 (set_yaw 0.2); entry 5000 (set_yaw 0)]
              [mkScriptAction 0 (set_yaw 0.2); mkScriptAction 5000 (set_yaw 0)] fresh))
    as (c'&H1&H2&_).
  - repeat constructor.
  - exists c'. now split.
Defined.

(** X7. Binding a key to a registered script records that script for
    the key, replacing whatever the key was bound to (one script per key),
    and leaves the other keys' bindings and the script table alone;
    pressing the key afterwards starts that script when its id is not
    empty. *)
Theorem bindKeyToScript_round_trip (key sid : string) (acts : list ScriptAction)
    (now : Q) (c : DroneControls) :
  scripts c !! sid = Some acts ->
  let c1 := bindKeyToScript key sid c in
  scriptBindings c1 !! key = Some sid /\
  (forall key', key' <> key -> scriptBindings c1 !! key' = scriptBindings c !! key') /\
  scripts c1 = scripts c /\ activeScripts c1 = activeScripts c /\
  (truthy_string sid = true ->
   activeScripts (onKeyDown key now c1) =
     activeScripts c ++ [mkScriptInstance sid acts now 0]).
Proof.
  intros Hs c1. subst c1. unfold bindKeyToScript. rewrite Hs.
  cbn [say scriptBindings set_scriptBindings scripts activeScripts].
  conjs; try reflexivity.
  - now rewrite lookup_insert_eq.
  - intros key' Hne. now rewrite lookup_insert_ne by congruence.
  - intros Ht. unfold onKeyDown, executeScript.
    cbn [say scriptBindings set_scriptBindings scripts activeScripts].
    rewrite lookup_insert_eq, Ht. cbn [scripts]. now rewrite Hs.
Qed.

Example bindKeyToScript_round_trip_witness :
  scriptBindings (bindKeyToScript "KeyS" "yawSpin" fresh) !! "KeyS" = Some "yawSpin" /\
  scriptBindings (bindKeyToScript "KeyS" "yawSpin" fresh) !! "KeyY" = Some "yawSpin".
Proof.
  destruct (bindKeyToScript_round_trip "KeyS" "yawSpin" yawSpinActions
              0 fresh eq_refl) as (H1&H2&_).
  split; [exact H1|]. rewrite H2 by discriminate. reflexivity.
Defined.

Lemma onKeyDown_bound (key sid : string) (acts : list ScriptAction) (now : Q)
    (c : DroneControls) :
  scriptBindings c !! key = Some sid -> truthy_string sid = true ->
  scripts c !! sid = Some acts ->
  onKeyDown key now c =
    say (LogStarted sid)
      (set_activeScripts (activeScripts c ++ [mkScriptInstance sid acts now 0]) c).
Proof. intros Hb Ht Hs. unfold onKeyDown, executeScript. now rewrite Hb, Ht, Hs. Qed.

Lemma stepInstance_allDue_spec (now : Q) (inst : ScriptInstance) (c : DroneControls) :
  nextActionIndex inst = 0%nat -> allDue now inst ->
  stepInstance now inst c =
    (mkScriptInstance (id inst) (actions inst) (startTime inst) (length (actions inst)),
     executeAll (now - startTime inst) (id inst) 0 (actions inst) c).
Proof.
  intros H0 Hd. rewrite stepInstance_spec. rewrite H0, drop_0.
  rewrite dueCount_all by exact Hd. now rewrite firstn_all.
Qed.

(** X8. Pressing a bound key twice starts two instances of the script,
    each with its own start time and cursor.  An update at which all actions
    of both are due runs the whole script once for the first instance and
    then once for the second, and retires both: besides what the actions
    print, the console gets the lines of actions 1 to n of the first
    instance and then those of actions 1 to n of the second. *)
Theorem double_press_two_instances (key sid : string) (acts : list ScriptAction)
    (t0 t1 dt now : Q) (c : DroneControls) :
  scripts c !! sid = Some acts -> scriptBindings c !! key = Some sid ->
  truthy_string sid = true -> activeScripts c = [] ->
  let c2 := onKeyDown key t1 (onKeyDown key t0 c) in
  activeScripts c2 =
    [mkScriptInstance sid acts t0 0; mkScriptInstance sid acts t1 0] /\
  (Forall (fun a => time a <= now - t0) acts ->
   Forall (fun a => time a <= now - t1) acts ->
   updateActiveScripts dt now c2 =
     set_activeScripts []
       (executeAll (now - t1) sid 0 acts (executeAll (now - t0) sid 0 acts c2)) /\
   exists first second,
     console (updateActiveScripts dt now c2) = console c2 ++ first ++ second /\
     omap actionNumber first = seq 1 (length acts) /\
     omap actionNumber second = seq 1 (length acts)).
Proof.
  intros Hs Hb Ht Ha c2.
  assert (Hc2 : activeScripts c2 =
            [mkScriptInstance sid acts t0 0; mkScriptInstance sid acts t1 0]).
  { subst c2. rewrite (onKeyDown_bound key sid acts t0 c Hb Ht Hs).
    rewrite (onKeyDown_bound key sid acts t1); try assumption.
    cbn [say set_activeScripts activeScripts]. now rewrite Ha. }
  split; [exact Hc2|].
  intros H0 H1.
  assert (Hu : updateActiveScripts dt now c2 =
     set_activeScripts []
       (executeAll (now - t1) sid 0 acts (executeAll (now - t0) sid 0 acts c2))).
  { unfold updateActiveScripts. rewrite Hc2. cbn [filterScripts].
    rewrite stepInstance_allDue_spec by (try reflexivity; exact H0).
    rewrite stepInstance_allDue_spec by (try reflexivity; exact H1).
    cbn [id actions startTime]. unfold remaining. cbn [nextActionIndex actions].
    now rewrite Nat.ltb_irrefl. }
  split; [exact Hu|].
  destruct (executeAll_console (now - t0) sid acts 0 c2) as (m1&Hm1&Hn1).
  destruct (executeAll_console (now - t1) sid acts 0
              (executeAll (now - t0) sid 0 acts c2)) as (m2&Hm2&Hn2).
  exists m1, m2. rewrite Hu. cbn [console set_activeScripts].
  rewrite Hm2, Hm1, <- app_assoc. now repeat split.
Qed.

Example double_press_two_instances_witness :
  let c2 := onKeyDown "KeyS" 5 (onKeyDown "KeyS" 0 fresh) in
  activeScripts c2 =
    [mkScriptInstance "hover" hoverActions 0 0;
     mkScriptInstance "hover" hoverActions 5 0] /\
  length (console (updateActiveScripts 16 2000 c2)) = (length (console c2) + 16)%nat.
Proof.
  intros c2. split.
  - exact (proj1 (double_press_two_instances "KeyS" "hover" hoverActions 0 5 16 2000
                    fresh eq_refl eq_refl eq_refl eq_refl)).
  - vm_compute. reflexivity.
Defined.






End ControlsProofs.


Module PhysicsProofs.

Import Physics Lra.

Local Open Scope R_scope.

(** *** Vectors *)

Lemma applyQuaternion_identity (v : Vector3.t) : applyQuaternion v identity = v.
Proof.
  destruct v as [x y z]. unfold applyQuaternion, identity. cbn.
  f_equal; ring.
Qed.


Lemma length_48_64 : Vector3.length (Vector3.mk 48 64 0) = 80.
Proof.
  unfold Vector3.length. cbn.
  replace (48 * 48 + 64 * 64 + 0 * 0) with (80 * 80) by lra.
  apply sqrt_square. lra.
Qed.

(** *** Thrust *)

Lemma Q2R_1 : Q2R 1 = 1.
Proof. unfold Q2R. cbn. lra. Qed.

Lemma unified_thrust (s : Settings) (controls : Controls.DroneControls)
    (origin : Vector3.t) :
  useIndividualMotors s = false ->
  (Controls.throttle (Controls.channels controls) == 1)%Q ->
  exists torque,
    applyControlsToDrone s controls (mkTransform origin identity) =
      Some [applyCentralForce (Vector3.mk 0 (maxThrust s) 0); applyTorque torque] /\
    netForce [applyCentralForce (Vector3.mk 0 (maxThrust s) 0); applyTorque torque] =
      Vector3.mk 0 (maxThrust s) 0.
Proof.
  intros Hmode Ht. unfold applyControlsToDrone. rewrite Hmode.
  cbn [getRotation Controls.getControlInputs Controls.in_throttle].
  rewrite (Qeq_eqR _ _ Ht), Q2R_1, !applyQuaternion_identity.
  eexists. split.
  - do 3 f_equal. f_equal. lra.
  - cbn. unfold Vector3.add, Vector3.zero. cbn. f_equal; lra.
Qed.

Lemma individual_thrust (s : Settings) (controls : Controls.DroneControls)
    (origin : Vector3.t) :
  useIndividualMotors s = true ->
  (Controls.motor1 (Controls.motorThrusts controls) == 0.6125)%Q ->
  (Controls.motor2 (Controls.motorThrusts controls) == 0.6125)%Q ->
  (Controls.motor3 (Controls.motorThrusts controls) == 0.6125)%Q ->
  (Controls.motor4 (Controls.motorThrusts controls) == 0.6125)%Q ->
  length (motorPositions s) = 4%nat ->
  exists p1 p2 p3 p4,
    let f := Vector3.mk 0 (0.6125 * maxThrust s) 0 in
    applyControlsToDrone s controls (mkTransform origin identity) =
      Some [applyForce f p1; applyForce f p2; applyForce f p3; applyForce f p4] /\
    netForce [applyForce f p1; applyForce f p2; applyForce f p3; applyForce f p4] =
      Vector3.mk 0 (2.45 * maxThrust s) 0.
Proof.
  intros Hmode H1 H2 H3 H4 Hlen. unfold applyControlsToDrone. rewrite Hmode.
  destruct (motorPositions s) as [|q1 [|q2 [|q3 [|q4 [|]]]]] eqn:Hpos;
    try discriminate.
  cbn [motorLoop motorCall motorThrust Controls.getControlInputs
       Controls.in_motorThrusts Controls.motor1 Controls.motor2 Controls.motor3
       Controls.motor4 getRotation getOrigin].
  rewrite Hpos.
  rewrite (Qeq_eqR _ _ H1), (Qeq_eqR _ _ H2), (Qeq_eqR _ _ H3), (Qeq_eqR _ _ H4),
    !applyQuaternion_identity.
  cbn.
  do 4 eexists. split; [reflexivity|].
  cbn. unfold Vector3.add, Vector3.zero. cbn. f_equal; lra.
Qed.

(** C3 (amended). At identity orientation, unified mode with throttle 1
    applies one central force of exactly [maxThrust] along world-up; the
    individual motor mode with the four thrusts at 0.6125 and the same
    [maxThrust] applies four forces of 0.6125 [maxThrust] each along
    world-up, a net force of 2.45 [maxThrust] and not of [maxThrust]. *)
Theorem thrust_at_zero_tilt (s : Settings) (controls : Controls.DroneControls)
    (origin : Vector3.t) :
  (useIndividualMotors s = false ->
   (Controls.throttle (Controls.channels controls) == 1)%Q ->
   exists torque,
     applyControlsToDrone s controls (mkTransform origin identity) =
       Some [applyCentralForce (Vector3.mk 0 (maxThrust s) 0); applyTorque torque] /\
     netForce [applyCentralForce (Vector3.mk 0 (maxThrust s) 0); applyTorque torque] =
       Vector3.mk 0 (maxThrust s) 0) /\
  (useIndividualMotors s = true ->
   (Controls.motor1 (Controls.motorThrusts controls) == 0.6125)%Q ->
   (Controls.motor2 (Controls.motorThrusts controls) == 0.6125)%Q ->
   (Controls.motor3 (Controls.motorThrusts controls) == 0.6125)%Q ->
   (Controls.motor4 (Controls.motorThrusts controls) == 0.6125)%Q ->
   length (motorPositions s) = 4%nat ->
   exists p1 p2 p3 p4,
     let f := Vector3.mk 0 (0.6125 * maxThrust s) 0 in
     applyControlsToDrone s controls (mkTransform origin identity) =
       Some [applyForce f p1; applyForce f p2; applyForce f p3; applyForce f p4] /\
     netForce [applyForce f p1; applyForce f p2; applyForce f p3; applyForce f p4] =
       Vector3.mk 0 (2.45 * maxThrust s) 0).
Proof.
  split; [apply unified_thrust | apply individual_thrust].
Qed.

Example thrust_at_zero_tilt_witness :
  (exists torque,
     applyControlsToDrone defaultSettings Controls.fullThrottle
       (mkTransform Vector3.zero identity) =
       Some [applyCentralForce (Vector3.mk 0 (maxThrust defaultSettings) 0);
             applyTorque torque] /\
     netForce [applyCentralForce (Vector3.mk 0 (maxThrust defaultSettings) 0);
               applyTorque torque] =
       Vector3.mk 0 (maxThrust defaultSettings) 0) /\
  (exists p1 p2 p3 p4,
     let f := Vector3.mk 0 (0.6125 * maxThrust individualSettings) 0 in
     applyControlsToDrone individualSettings Controls.fresh
       (mkTransform Vector3.zero identity) =
       Some [applyForce f p1; applyForce f p2; applyForce f p3; applyForce f p4] /\
     netForce [applyForce f p1; applyForce f p2; applyForce f p3; applyForce f p4] =
       Vector3.mk 0 (2.45 * maxThrust individualSettings) 0).
Proof.
  split.
  - apply (proj1 (thrust_at_zero_tilt defaultSettings Controls.fullThrottle
                    Vector3.zero)).
    + reflexivity.
    + vm_compute. reflexivity.
  - apply (proj2 (thrust_at_zero_tilt individualSettings Controls.fresh
                    Vector3.zero)); reflexivity.
Defined.

(** C3, as stated, fails: with the default [maxThrust] of 1 in both
    modes and the body at identity orientation, unified mode at throttle 1
    applies a net force of 1 along world-up and the individual motor mode at
    the trim of 0.6125 a net force of 2.45. *)
Lemma modes_disagree_counterexample :
  let tr := mkTransform Vector3.zero identity in
  Controls.throttle (Controls.channels Controls.fullThrottle) = 1%Q /\
  Controls.motorThrusts Controls.fresh =
    Controls.mkMotorThrusts 0.6125 0.6125 0.6125 0.6125 /\
  maxThrust individualSettings = maxThrust defaultSettings /\
  exists unified individual,
    applyControlsToDrone defaultSettings Controls.fullThrottle tr = Some unified /\
    applyControlsToDrone individualSettings Controls.fresh tr = Some individual /\
    netForce unified = Vector3.mk 0 1 0 /\
    netForce individual = Vector3.mk 0 2.45 0 /\
    netForce unified <> netForce individual.
Proof.
  intros tr. split; [vm_compute; reflexivity|]. split; [reflexivity|].
  split; [reflexivity|].
  assert (Ht : (Controls.throttle (Controls.channels Controls.fullThrottle) == 1)%Q)
    by (vm_compute; reflexivity).
  destruct (unified_thrust defaultSettings Controls.fullThrottle Vector3.zero
              eq_refl Ht) as (torque&Hu&Hnu).
  destruct (individual_thrust individualSettings Controls.fresh Vector3.zero
              eq_refl ltac:(reflexivity) ltac:(reflexivity) ltac:(reflexivity)
              ltac:(reflexivity) eq_refl) as (p1&p2&p3&p4&Hm&Hnm).
  cbv zeta in Hm, Hnm.
  eexists. eexists. split; [exact Hu|]. split; [exact Hm|].
  rewrite Hnu, Hnm. cbn [maxThrust defaultSettings individualSettings].
  split; [reflexivity|]. split; [f_equal; lra|].
  intros H. injection H as H. lra.
Qed.

(** ** Further properties of the flight dynamics *)


Lemma applyQuaternion_scale (k : R) (v : Vector3.t) (q : Quaternion) :
  applyQuaternion (Vector3.scale k v) q = Vector3.scale k (applyQuaternion v q).
Proof.
  destruct v as [x y z]. destruct q as [a b c w].
  unfold applyQuaternion, Vector3.scale. cbn. f_equal; ring.
Qed.




Lemma netForce_four (f1 f2 f3 f4 p1 p2 p3 p4 : Vector3.t) :
  netForce [applyForce f1 p1; applyForce f2 p2; applyForce f3 p3; applyForce f4 p4] =
    Vector3.add f1 (Vector3.add f2 (Vector3.add f3 (Vector3.add f4 Vector3.zero))).
Proof. reflexivity. Qed.

(** X12. In individual motor mode with four motor positions, at any
    orientation, the engine makes exactly four [applyForce] calls and no
    other: motor i pushes with its thrust times [maxThrust] along the rotated
    body-up axis at its rotated position plus the body origin, so the net
    force is the sum of the four thrusts times [maxThrust] along that axis.
    The channels play no part. *)
Theorem individual_thrust_any_tilt (s : Settings) (controls : Controls.DroneControls)
    (tr : Transform) (q1 q2 q3 q4 : Vector3.t) :
  useIndividualMotors s = true -> motorPositions s = [q1; q2; q3; q4] ->
  let mt := Controls.motorThrusts controls in
  let up := applyQuaternion (Vector3.mk 0 1 0) (getRotation tr) in
  let force m := Vector3.scale (Q2R m * maxThrust s) up in
  let at_ q := Vector3.add (applyQuaternion q (getRotation tr)) (getOrigin tr) in
  applyControlsToDrone s controls tr =
    Some [applyForce (force (Controls.motor1 mt)) (at_ q1);
          applyForce (force (Controls.motor2 mt)) (at_ q2);
          applyForce (force (Controls.motor3 mt)) (at_ q3);
          applyForce (force (Controls.motor4 mt)) (at_ q4)] /\
  netForce [applyForce (force (Controls.motor1 mt)) (at_ q1);
            applyForce (force (Controls.motor2 mt)) (at_ q2);
            applyForce (force (Controls.motor3 mt)) (at_ q3);
            applyForce (force (Controls.motor4 mt)) (at_ q4)] =
    Vector3.scale
      ((Q2R (Controls.motor1 mt) + Q2R (Controls.motor2 mt) +
        Q2R (Controls.motor3 mt) + Q2R (Controls.motor4 mt)) * maxThrust s) up.
Proof.
  intros Hmode Hpos mt up force at_. subst mt up force at_.
  assert (E : forall t, applyQuaternion (Vector3.mk 0 t 0) (getRotation tr) =
              Vector3.scale t (applyQuaternion (Vector3.mk 0 1 0) (getRotation tr))).
  { intros t. rewrite <- applyQuaternion_scale. f_equal.
    unfold Vector3.scale. cbn. f_equal; ring. }
  split.
  - unfold applyControlsToDrone. rewrite Hmode.
    cbn [motorLoop motorCall motorThrust Controls.getControlInputs
         Controls.in_motorThrusts Controls.motor1 Controls.motor2 Controls.motor3
         Controls.motor4]. rewrite Hpos.
    change ([q1; q2; q3; q4] !! (1 - 1)%nat) with (Some q1).
    change ([q1; q2; q3; q4] !! (2 - 1)%nat) with (Some q2).
    change ([q1; q2; q3; q4] !! (3 - 1)%nat) with (Some q3).
    change ([q1; q2; q3; q4] !! (4 - 1)%nat) with (Some q4).
    cbn [app].
    rewrite (E (Q2R (Controls.motor1 (Controls.motorThrusts controls)) * maxThrust s)),
      (E (Q2R (Controls.motor2 (Controls.motorThrusts controls)) * maxThrust s)),
      (E (Q2R (Controls.motor3 (Controls.motorThrusts controls)) * maxThrust s)),
      (E (Q2R (Controls.motor4 (Controls.motorThrusts controls)) * maxThrust s)).
    reflexivity.
  - rewrite netForce_four.
    destruct (applyQuaternion (Vector3.mk 0 1 0) (getRotation tr)) as [x y z].
    unfold Vector3.add, Vector3.scale, Vector3.zero. cbn. f_equal; ring.
Qed.

Example individual_thrust_any_tilt_witness :
  exists calls,
    applyControlsToDrone individualSettings Controls.fresh
      (mkTransform (Vector3.mk 0 5 0) (mkQuaternion 1 0 0 0)) = Some calls /\
    length calls = 4%nat.
Proof.
  destruct (individual_thrust_any_tilt individualSettings Controls.fresh
              (mkTransform (Vector3.mk 0 5 0) (mkQuaternion 1 0 0 0))
              _ _ _ _ eq_refl eq_refl) as [H _].
  eexists. split; [exact H | reflexivity].
Defined.

(** *** Aerodynamics *)

Lemma length_opp (v : Vector3.t) :
  Vector3.length (Vector3.mk (- Vector3.x v) (- Vector3.y v) (- Vector3.z v)) =
    Vector3.length v.
Proof.
  destruct v as [x y z]. unfold Vector3.length. cbn. f_equal. ring.
Qed.

Lemma length_square (v : Vector3.t) :
  Vector3.length v * Vector3.length v = dot v v.
Proof.
  destruct v as [x y z]. unfold Vector3.length, dot. cbn.
  apply sqrt_sqrt. nra.
Qed.

(** X13. For a moving body the first aerodynamic call is a drag force
    equal to the velocity scaled by -(1/2 Cd A rho |v|): it points against
    the velocity, and its power [dot drag v] is -(1/2 Cd A rho) |v|^3, never
    positive for non-negative coefficients.  A body at rest gets no drag
    call at all, only a zero lift force. *)
Theorem drag_opposes_velocity (s : Settings) (v : Vector3.t) (tr : Transform) :
  let k := 0.5 * dragCoefficient s * frontalArea s * airDensity s in
  (0 < Vector3.length v ->
   exists lift,
     applyAerodynamics s v tr =
       [applyCentralForce (Vector3.scale (- (k * Vector3.length v)) v);
        applyCentralForce lift] /\
     dot (Vector3.scale (- (k * Vector3.length v)) v) v =
       - k * (Vector3.length v * Vector3.length v * Vector3.length v) /\
     (0 <= k -> dot (Vector3.scale (- (k * Vector3.length v)) v) v <= 0)) /\
  (Vector3.length v = 0 ->
   applyAerodynamics s v tr = [applyCentralForce Vector3.zero]).
Proof.
  intros k. split.
  - intros Hv. unfold applyAerodynamics.
    destruct (Rlt_dec 0 (Vector3.length v)) as [_|Hn]; [|contradiction].
    eexists. split; [|split].
    + cbn [app]. f_equal. f_equal.
      unfold btNormalize. rewrite length_opp.
      destruct v as [x y z]. unfold Vector3.scale.
      cbn [Vector3.x Vector3.y Vector3.z].
      set (L := Vector3.length (Vector3.mk x y z)) in *.
      subst k. f_equal; field; lra.
    + pose proof (length_square v) as Hsq.
      destruct v as [x y z]. unfold dot, Vector3.scale in *.
      cbn [Vector3.x Vector3.y Vector3.z] in *.
      set (L := Vector3.length (Vector3.mk x y z)) in *.
      replace (x * - (k * L) * x + y * - (k * L) * y + z * - (k * L) * z)
        with (- k * L * (x * x + y * y + z * z)) by ring.
      rewrite <- Hsq. ring.
    + intros Hk. pose proof (length_square v) as Hsq.
      destruct v as [x y z]. unfold dot, Vector3.scale in *.
      cbn [Vector3.x Vector3.y Vector3.z] in *.
      set (L := Vector3.length (Vector3.mk x y z)) in *.
      replace (x * - (k * L) * x + y * - (k * L) * y + z * - (k * L) * z)
        with (- (k * L * (x * x + y * y + z * z))) by ring.
      rewrite <- Hsq.
      assert (0 <= k * L * (L * L)); [|lra].
      apply Rmult_le_pos; [apply Rmult_le_pos; lra | nra].
  - intros Hv. unfold applyAerodynamics. rewrite Hv.
    destruct (Rlt_dec 0 0) as [Hn|_]; [lra|].
    cbn [app]. f_equal. f_equal. unfold Vector3.zero. f_equal; ring.
Qed.

Example drag_opposes_velocity_witness :
  exists lift,
    applyAerodynamics defaultSettings (Vector3.mk 48 64 0)
      (mkTransform Vector3.zero identity) =
      [applyCentralForce
         (Vector3.scale
            (- (0.5 * dragCoefficient defaultSettings * frontalArea defaultSettings *
                airDensity defaultSettings * Vector3.length (Vector3.mk 48 64 0)))
            (Vector3.mk 48 64 0));
       applyCentralForce lift].
Proof.
  destruct (proj1 (drag_opposes_velocity defaultSettings (Vector3.mk 48 64 0)
                     (mkTransform Vector3.zero identity))) as (lift&H&_).
  - rewrite length_48_64. lra.
  - exists lift. exact H.
Defined.



(** *** Mesh synchronisation *)




(** *** The earlier engine *)

(** X18. The earlier engine is the later one under one settings record:
    its thrust and torque, its aerodynamic forces and its velocity limits
    are those of the later engine in unified mode with [maxThrust] = 19.62,
    lift coefficient 0.1 and otherwise the default values. *)
Theorem legacy_engine_is_a_preset (controls : Controls.DroneControls)
    (v : Vector3.t) (tr : Transform) (rigidBodies : list Body) :
  applyControlsToDrone LegacyPhysics.legacySettings controls tr =
    Some (LegacyPhysics.applyControlsToDrone controls tr) /\
  applyAerodynamics LegacyPhysics.legacySettings v tr =
    LegacyPhysics.applyAerodynamics v tr /\
  updateMeshPositions LegacyPhysics.legacySettings rigidBodies =
    LegacyPhysics.updateMeshPositions rigidBodies.
Proof. now repeat split. Qed.

End PhysicsProofs.

Module FpvProofs.

Import Fpv.

(** X19. [captureFPVSnapshot] returns pixel data exactly when the
    renderer has a canvas of non-zero width and height, and then the data
    has width x height x 4 bytes, so [displayImage] with the same
    dimensions accepts it and shows it unchanged; in every other case the
    capture returns nothing and writes an error line, and [displayImage]
    rejects the missing data. *)
Theorem capture_fits_display (fpvRenderer : option Renderer) :
  (forall r canvas,
     fpvRenderer = Some r -> domElement r = Some canvas ->
     width canvas <> 0%nat -> height canvas <> 0%nat ->
     exists data,
       fst (captureFPVSnapshot fpvRenderer) = Some data /\
       length data = (width canvas * height canvas * 4)%nat /\
       (forall i, (i < length data)%nat -> data !! i = Some (framebuffer r i)) /\
       displayImage (Some data) (width canvas) (height canvas) = (Some data, [])) /\
  ((forall r canvas,
      fpvRenderer = Some r -> domElement r = Some canvas ->
      width canvas = 0%nat \/ height canvas = 0%nat) ->
   fst (captureFPVSnapshot fpvRenderer) = None /\
   (exists e, last (snd (captureFPVSnapshot fpvRenderer)) = Some e /\
              (e = ErrZeroSize \/ e = ErrNotInitialized)) /\
   forall w h,
     displayImage (fst (captureFPVSnapshot fpvRenderer)) w h =
       (None, [ErrInvalidPixelData])).
Proof.
  split.
  - intros r canvas -> Hd Hw Hh. unfold captureFPVSnapshot. rewrite Hd.
    apply Nat.eqb_neq in Hw, Hh. rewrite Hw, Hh. cbn [orb fst].
    eexists. split; [reflexivity|].
    assert (Hlen : length (readPixels r (width canvas * height canvas * 4)) =
                   (width canvas * height canvas * 4)%nat).
    { unfold readPixels. now rewrite length_map, length_seq. }
    split; [exact Hlen|]. split.
    + intros i Hi. unfold readPixels in *.
      change (map ?f ?l) with (f <$> l). rewrite list_lookup_fmap.
      rewrite Hlen in Hi. rewrite lookup_seq_lt by exact Hi. reflexivity.
    + unfold displayImage. rewrite Hlen, Nat.eqb_refl. reflexivity.
  - intros H. unfold captureFPVSnapshot.
    destruct fpvRenderer as [r|]; [destruct (domElement r) as [canvas|] eqn:Hd|].
    + assert (Hz : ((width canvas =? 0) || (height canvas =? 0))%nat = true).
      { destruct (H r canvas eq_refl Hd) as [E|E]; rewrite E;
          [reflexivity | now rewrite orb_true_r]. }
      rewrite Hz. cbn. split; [reflexivity|]. split; [eauto|reflexivity].
    + cbn. split; [reflexivity|]. split; [eauto|reflexivity].
    + cbn. split; [reflexivity|]. split; [eauto|reflexivity].
Qed.

Example capture_fits_display_witness :
  exists data,
    fst (captureFPVSnapshot
           (Some (mkRenderer (Some (mkCanvas 384 216)) (fun _ => Byte.x00)))) =
      Some data /\
    length data = (384 * 216 * 4)%nat.
Proof.
  destruct (proj1 (capture_fits_display
              (Some (mkRenderer (Some (mkCanvas 384 216)) (fun _ => Byte.x00))))
              _ (mkCanvas 384 216) eq_refl eq_refl) as (data&H1&H2&_).
  - cbn. discriminate.
  - cbn. discriminate.
  - exists data. split; [exact H1 | exact H2].
Defined.

End FpvProofs.
